(** * Leaffliction: the mask-extraction pipeline of [Transformation.py]

    A shallow embedding of [src/Transformation.py] and of the library
    operations it calls, with the properties of the design document stated
    and settled against it. *)

From Stdlib Require Import ZArith List Bool Lia.
From stdpp Require Import base list strings gmap.

Local Open Scope Z_scope.

(** ** Data model *)

Module Grid.

(** A numpy array of shape (height, width): rows of cells. *)
Abbreviation t A := (list (list A)) (only parsing).

Definition height {A} (g : t A) : nat := length g.

Definition width {A} (g : t A) : nat :=
  match g with
  | [] => 0%nat
  | row :: _ => length row
  end.

Definition cell {A} (g : t A) (r c : nat) : option A :=
  g !! r ≫= (λ row, row !! c).

Definition map {A B} (f : A → B) (g : t A) : t B :=
  fmap (M:=list) (fmap (M:=list) f) g.

Definition imap {A B} (f : nat → nat → A → B) (g : t A) : t B :=
  list.imap (λ r, list.imap (f r)) g.

(** Every row has the length of the first one, as in an ndarray. *)
Definition rectangular {A} (g : t A) : Prop :=
  Forall (λ row, length row = width g) g.

(** Row lengths, top to bottom: the full shape of a possibly ragged grid. *)
Definition row_lengths {A} (g : t A) : list nat :=
  fmap (M:=list) length g.

End Grid.

(** One pixel of a decoded picture, three integer channels. *)
Abbreviation Pixel := (Z * Z * Z)%type.
Abbreviation Image := (list (list Pixel)).
Abbreviation GrayscaleBuffer := (list (list Z)).
Abbreviation BinaryMask := (list (list Z)).

Definition FOREGROUND : Z := 255.
Definition BACKGROUND : Z := 0.

Abbreviation Cell := (nat * nat)%type.

(** ** Library operations on masks *)

Module Pcv.

Definition is_background (m : BinaryMask) (p : Cell) : bool :=
  match Grid.cell m p.1 p.2 with
  | Some v => v =? BACKGROUND
  | None => false
  end.

Definition on_border (m : BinaryMask) (p : Cell) : bool :=
  (p.1 =? 0)%nat || (S p.1 =? Grid.height m)%nat
  || (p.2 =? 0)%nat || (S p.2 =? Grid.width m)%nat.

(** 8-connectivity: row and column indices differ by at most one. *)
Definition adjacent8 (p q : Cell) : bool :=
  (p.1 <=? S q.1)%nat && (q.1 <=? S p.1)%nat
  && (p.2 <=? S q.2)%nat && (q.2 <=? S p.2)%nat.

(** 4-connectivity: the same row or the same column, one step apart. *)
Definition adjacent4 (p q : Cell) : bool :=
  adjacent8 p q && ((p.1 =? q.1)%nat || (p.2 =? q.2)%nat).

Definition cells (m : BinaryMask) : list Cell :=
  list_prod (seq 0 (Grid.height m)) (seq 0 (Grid.width m)).

(** One round of region growing from the boundary: the background cells
    that lie on the border or next to a cell already reached, for the
    connectivity [adj]. *)
Definition grow (adj : Cell → Cell → bool) (m : BinaryMask)
    (reached : list Cell) : list Cell :=
  List.filter
    (λ p, is_background m p && (on_border m p || existsb (adj p) reached))
    (cells m).

Definition grow_n (adj : Cell → Cell → bool) (m : BinaryMask) (n : nat)
  : list Cell :=
  Nat.iter n (grow adj m) [].

(** The background cells connected to the image boundary. *)
Definition outer_background (adj : Cell → Cell → bool) (m : BinaryMask)
  : list Cell :=
  grow_n adj m (length (cells m)).

(** No round adds a cell after round [k]. *)
Definition stable (adj : Cell → Cell → bool) (m : BinaryMask) (k : nat)
  : Prop :=
  incl (grow_n adj m (S k)) (grow_n adj m k).

Definition fill_cell (outer : list Cell) (r c : nat) (v : Z) : Z :=
  if (v =? BACKGROUND) && negb (bool_decide ((r, c) ∈ outer))
  then FOREGROUND else v.

(** Hole filling by boundary-reachability flood fill, for the connectivity
    [adj] of the background. *)
Definition fill_holes_with (adj : Cell → Cell → bool) (m : BinaryMask)
  : BinaryMask :=
  Grid.imap (fill_cell (outer_background adj m)) m.

(** Modelled from the spec: [pcv.fill_holes] is a PlantCV function whose
    body is not part of the repository.  Section 4.3: every BACKGROUND
    component that does not touch the image boundary is relabeled
    FOREGROUND; components touching the boundary are left unchanged;
    8-connectivity is assumed for region growing. *)
Definition fill_holes (m : BinaryMask) : BinaryMask :=
  fill_holes_with adjacent8 m.

(** The declarative reading of the same sentence: a background cell is
    connected to the boundary when a chain of pairwise adjacent background
    cells links it to a background cell of the border. *)
Inductive touches_boundary (adj : Cell → Cell → bool) (m : BinaryMask)
  : Cell → Prop :=
| tb_border p :
    In p (cells m) → is_background m p = true → on_border m p = true →
    touches_boundary adj m p
| tb_step p q :
    touches_boundary adj m q →
    In p (cells m) → is_background m p = true → adj p q = true →
    touches_boundary adj m p.

End Pcv.

(** ** Thresholding *)

Module Otsu.

(** Intensity levels of the histogram of an 8-bit buffer. *)
Definition levels : list Z := Z.of_nat <$> seq 0 256.

Definition sum (l : list Z) : Z := fold_right Z.add 0 l.

(** The two classes a threshold [t] separates. *)
Definition below (values : list Z) (t : Z) : list Z :=
  List.filter (λ v, v <? t) values.
Definition at_or_above (values : list Z) (t : Z) : list Z :=
  List.filter (λ v, t <=? v) values.

(** Inter-class variance of the split at [t], as an exact fraction
    [(numerator, denominator)] with a positive denominator.  With class
    sizes [n0], [n1] and class sums [s0], [s1] the variance
    [w0 * w1 * (mu0 - mu1)^2] is [(s1*n0 - s0*n1)^2 / (n0*n1)] up to the
    constant factor [1/N^2].  It is undefined when a class is empty. *)
Definition between_class_variance (values : list Z) (t : Z) : option (Z * Z) :=
  let lo := below values t in
  let hi := at_or_above values t in
  let n0 := Z.of_nat (length lo) in
  let n1 := Z.of_nat (length hi) in
  if (n0 =? 0) || (n1 =? 0) then None
  else Some ((sum hi * n0 - sum lo * n1) ^ 2, n0 * n1).

(** [a/b < c/d] for positive [b], [d]. *)
Definition frac_lt (x y : Z * Z) : bool := x.1 * y.2 <? y.1 * x.2.

Definition better (values : list Z) (best : option (Z * (Z * Z))) (t : Z)
  : option (Z * (Z * Z)) :=
  match between_class_variance values t, best with
  | None, _ => best
  | Some v, None => Some (t, v)
  | Some v, Some (_, vb) => if frac_lt vb v then Some (t, v) else best
  end.

(** The threshold that maximizes the inter-class variance (the lowest such
    level); [None] is the degenerate case where no level separates two
    non-empty classes. *)
Definition otsu_threshold (values : list Z) : option Z :=
  fst <$> fold_left (better values) levels None.

Inductive Polarity := LIGHT_IS_OBJECT | DARK_IS_OBJECT.

Definition label (polarity : Polarity) (t v : Z) : Z :=
  match polarity with
  | LIGHT_IS_OBJECT => if t <=? v then FOREGROUND else BACKGROUND
  | DARK_IS_OBJECT => if t <=? v then BACKGROUND else FOREGROUND
  end.

(** Modelled from the spec: [pcv.threshold.otsu] is a PlantCV function
    whose body is not part of the repository.  Section 4.2: choose the
    global threshold [t] that maximizes inter-class variance over the
    histogram; for LIGHT_IS_OBJECT label every pixel with intensity [>= t]
    FOREGROUND, else BACKGROUND; when the threshold is degenerate, all
    pixels fall into the BACKGROUND class. *)
Definition threshold (gray : GrayscaleBuffer) (polarity : Polarity)
  : BinaryMask :=
  match otsu_threshold (concat gray) with
  | Some t => Grid.map (label polarity t) gray
  | None => Grid.map (λ _, BACKGROUND) gray
  end.

End Otsu.

(** ** Exceptions, effects and the environment *)

Inductive exn :=
| ValueError (msg : string)
| KeyError (key : string)
| RuntimeError (msg : string)   (* PlantCV's [fatal_error] *)
| OSError (msg : string)        (* raised by [os.makedirs] *)
| IndexError (msg : string)     (* raised by numpy indexing *)
| SystemExit (code : Z).        (* not a subclass of [Exception] *)

(** [str(e)] *)
Definition str (e : exn) : string :=
  match e with
  | ValueError msg => msg
  | KeyError key => "'" +:+ key +:+ "'"
  | RuntimeError msg => msg
  | OSError msg => msg
  | IndexError msg => msg
  | SystemExit _ => ""
  end.

(** What [except Exception] catches. *)
Definition is_Exception (e : exn) : bool :=
  match e with
  | SystemExit _ => false
  | _ => true
  end.

Inductive outcome (A : Type) :=
| Return (a : A)
| Raise (e : exn).
Arguments Return {A} a.
Arguments Raise {A} e.

(** An array handed to [pcv.print_image]: a mask or a colour image. *)
Inductive ndarray :=
| Gray (g : Grid.t Z)
| Color (img : Image).

(** Frequencies of one histogram, one entry per bin. *)
Definition Series : Type := list Z.

Inductive artifact :=
| Picture (a : ndarray)
| Plot (curves : list (string * Series)).

(** What a run does to the outside world, oldest first. *)
Inductive event :=
| Stdout (line : string)
| Call (fn : string)
| MakeDirs (dir : string)
| ReadImage (path : string)
| Saved (path : string) (content : artifact).

(** Computations that append to the trace and return or raise. *)
Definition M (A : Type) : Type := list event → outcome A * list event.

Definition run {A} (m : M A) (tr : list event) : outcome A * list event := m tr.

#[global] Instance M_ret : MRet M := λ A a tr, (Return a, tr).

#[global] Instance M_bind : MBind M := λ A B f m tr,
  match m tr with
  | (Return a, tr') => f a tr'
  | (Raise e, tr') => (Raise e, tr')
  end.

Definition raise {A} (e : exn) : M A := λ tr, (Raise e, tr).

Definition emit (e : event) : M unit := λ tr, (Return tt, tr ++ [e]).

Definition print (line : string) : M unit := emit (Stdout line).

(** [try: body except Exception as e: handler e] *)
Definition try_except {A} (body : M A) (handler : exn → M A) : M A := λ tr,
  match body tr with
  | (Raise e, tr') => if is_Exception e then handler e tr' else (Raise e, tr')
  | r => r
  end.

(** A library call: it is recorded, then returns or raises. *)
Definition library_call {A} (fn : string) (result : outcome A) : M A := λ tr,
  (result, tr ++ [Call fn]).

(** [for x in xs: body x] *)
Fixpoint for_each {A} (xs : list A) (body : A → M unit) : M unit :=
  match xs with
  | [] => mret tt
  | x :: xs' => body x ;; for_each xs' body
  end.

(** Files written during a run, in order. *)
Definition written (tr : list event) : list string :=
  omap (λ e, match e with Saved path _ => Some path | _ => None end) tr.

(** The vision and plotting operations whose results the program only
    passes on: they are parameters of the development. *)
Record Library := {
  (** colour conversion of one pixel *)
  to_lab : Pixel → Z * Z * Z;
  to_hsv : Pixel → Z * Z * Z;
  to_cmyk : Pixel → Z * Z * Z * Z;
  (** [cv2.cvtColor(img, cv2.COLOR_BGR2GRAY)], one pixel *)
  bgr2gray : Pixel → Z;
  (** [cv2.threshold(src, thresh, maxval, cv2.THRESH_BINARY)[1]] *)
  cv2_threshold_binary : GrayscaleBuffer → Z → Z → BinaryMask;
  (** [pcv.analyze.size] *)
  analyze_size : Image → BinaryMask → Image;
  (** the numbers of landmark coordinates, as the library returns them *)
  coordinate : Type;
  (** [pcv.homology.x_axis_pseudolandmarks]: top, bottom, center points *)
  x_axis_pseudolandmarks :
    Image → BinaryMask →
    list (coordinate * coordinate) * list (coordinate * coordinate)
    * list (coordinate * coordinate);
  (** numpy's value of
      [(x - center[1]) ** 2 + (y - center[0]) ** 2 <= radius ** 2]
      at row [x] and column [y] of the [np.ogrid] index arrays *)
  within_radius : nat → nat → coordinate * coordinate → Z → bool;
  (** [pcv.analyze.color] followed by a read of [pcv.outputs.observations] *)
  analyze_color_observations :
    Image → BinaryMask → outcome (gmap string (gmap string Series));
  (** [cv2.rectangle(img, pt1, pt2, color, thickness)] *)
  cv2_rectangle : Image → Z * Z → Z * Z → Pixel → Z → Image;
}.

(** The file system the command line runs against. *)
Record World := {
  isfile : string → bool;
  isdir : string → bool;
  listdir : string → list string;
  (** [pcv.readimage]: the decoded picture, if the file can be read *)
  decode : string → option Image;
  (** [os.makedirs(dir, exist_ok=True)]: the message of the OSError it
      raises, if the directory cannot be created *)
  makedirs_error : string → option string;
}.

(** ** Python built-ins used by the program *)

(** [x in [a, b, ...]] on strings *)
Definition py_in (x : string) (xs : list string) : bool :=
  existsb (String.eqb x) xs.

Definition lower_ascii (c : Ascii.ascii) : Ascii.ascii :=
  let n := Ascii.N_of_ascii c in
  if ((65 <=? n) && (n <=? 90))%N then Ascii.ascii_of_N (n + 32) else c.

(** [s.lower()], on ASCII *)
Fixpoint lower (s : string) : string :=
  match s with
  | EmptyString => EmptyString
  | String c s' => String (lower_ascii c) (lower s')
  end.

(** [s.endswith(suffix)] *)
Definition endswith (s suffix : string) : bool :=
  let n := String.length s in
  let k := String.length suffix in
  (k <=? n)%nat && String.eqb (String.substring (n - k) k s) suffix.

(** [os.path.join(a, b)], POSIX *)
Definition path_join (a b : string) : string :=
  if String.prefix "/" b then b
  else if String.eqb a "" || endswith a "/" then a +:+ b
  else a +:+ "/" +:+ b.

(** [d[k]] on a dictionary *)
Definition dict_get {V} (d : gmap string V) (k : string) : M V :=
  match d !! k with
  | Some v => mret v
  | None => raise (KeyError k)
  end.

(** [[f(x) for x in xs]] with effects, left to right *)
Fixpoint map_m {A B} (f : A → M B) (xs : list A) : M (list B) :=
  match xs with
  | [] => mret []
  | x :: xs' => y ← f x; ys ← map_m f xs'; mret (y :: ys)
  end.

(** One entry of the histogram dictionary of [analyze_color]. *)
Definition histogram_entry (color_data : gmap string Series)
    (channel : string) : M (string * Series) :=
  data ← dict_get color_data (channel +:+ "_frequencies");
  mret (channel, data).

Definition histogram_path (output : string) : string :=
  path_join output "color_histogram.png".

(** The picture and the mask have the same numbers of rows and columns. *)
Definition same_shape {A B} (a : Grid.t A) (m : Grid.t B) : bool :=
  bool_decide (Grid.row_lengths a = Grid.row_lengths m).

(** ** The program *)

Section Program.
Context (lib : Library) (world : World).

(** *** Library calls *)

(** Modelled from the spec: [pcv.rgb2gray_lab], [pcv.rgb2gray_hsv] and
    [pcv.rgb2gray_cmyk] are PlantCV functions whose bodies are not part of
    the repository.  Section 4.1: the image is converted to the target
    colorspace and the named channel is extracted as a single-channel
    buffer with the same dimensions.  A channel outside the family is the
    library's own failure. *)
Definition pcv_rgb2gray_lab (rgb_img : Image) (channel : string)
  : M GrayscaleBuffer :=
  library_call "pcv.rgb2gray_lab"
    (if String.eqb channel "l"
     then Return (Grid.map (λ px, (to_lab lib px).1.1) rgb_img)
     else if String.eqb channel "a"
     then Return (Grid.map (λ px, (to_lab lib px).1.2) rgb_img)
     else if String.eqb channel "b"
     then Return (Grid.map (λ px, (to_lab lib px).2) rgb_img)
     else Raise (RuntimeError ("Channel " +:+ channel +:+ " is not l, a or b!"))).

(** Modelled from the spec: section 4.1 as above, for the HSV family. *)
Definition pcv_rgb2gray_hsv (rgb_img : Image) (channel : string)
  : M GrayscaleBuffer :=
  library_call "pcv.rgb2gray_hsv"
    (if String.eqb channel "h"
     then Return (Grid.map (λ px, (to_hsv lib px).1.1) rgb_img)
     else if String.eqb channel "s"
     then Return (Grid.map (λ px, (to_hsv lib px).1.2) rgb_img)
     else if String.eqb channel "v"
     then Return (Grid.map (λ px, (to_hsv lib px).2) rgb_img)
     else Raise (RuntimeError ("Channel " +:+ channel +:+ " is not h, s or v!"))).

(** Modelled from the spec: section 4.1 as above, for the CMYK family. *)
Definition pcv_rgb2gray_cmyk (rgb_img : Image) (channel : string)
  : M GrayscaleBuffer :=
  library_call "pcv.rgb2gray_cmyk"
    (if String.eqb channel "c"
     then Return (Grid.map (λ px, (to_cmyk lib px).1.1.1) rgb_img)
     else if String.eqb channel "m"
     then Return (Grid.map (λ px, (to_cmyk lib px).1.1.2) rgb_img)
     else if String.eqb channel "y"
     then Return (Grid.map (λ px, (to_cmyk lib px).1.2) rgb_img)
     else if String.eqb channel "k"
     then Return (Grid.map (λ px, (to_cmyk lib px).2) rgb_img)
     else Raise (RuntimeError ("Channel " +:+ channel +:+ " is not c, m, y or k!"))).

(** Modelled from the spec: [pcv.threshold.otsu(gray_img, object_type)] is
    the thresholder of section 4.2, [Otsu.threshold], with the polarity
    named by the object type: "light" is LIGHT_IS_OBJECT, "dark" is
    DARK_IS_OBJECT. *)
Definition pcv_threshold_otsu (gray_img : GrayscaleBuffer)
    (object_type : string) : M BinaryMask :=
  library_call "pcv.threshold.otsu"
    (if String.eqb object_type "light"
     then Return (Otsu.threshold gray_img Otsu.LIGHT_IS_OBJECT)
     else if String.eqb object_type "dark"
     then Return (Otsu.threshold gray_img Otsu.DARK_IS_OBJECT)
     else Raise (RuntimeError
                   ("Object type " +:+ object_type +:+ " is not light or dark!"))).

(** Modelled from the spec: [pcv.fill_holes(bin_img)] is the hole filler of
    section 4.3, [Pcv.fill_holes]. *)
Definition pcv_fill_holes (bin_img : BinaryMask) : M BinaryMask :=
  library_call "pcv.fill_holes" (Return (Pcv.fill_holes bin_img)).

Definition white : Pixel := (255, 255, 255).
Definition black : Pixel := (0, 0, 0).

Definition masked_out (mask : BinaryMask) (r c : nat) : bool :=
  match Grid.cell mask r c with
  | Some v => v =? BACKGROUND
  | None => false
  end.

(** Modelled from the spec: [pcv.apply_mask] is a PlantCV function whose
    body is not part of the repository.  Section 4.5, recolor-by-mask: a
    copy of the image where BACKGROUND cells are overwritten with a fixed
    color; FOREGROUND cells pass through unchanged. *)
Definition pcv_apply_mask (img : Image) (mask : BinaryMask)
    (mask_color : string) : M Image :=
  library_call "pcv.apply_mask"
    (if String.eqb mask_color "white"
     then Return (Grid.imap
                    (λ r c px, if masked_out mask r c then white else px) img)
     else if String.eqb mask_color "black"
     then Return (Grid.imap
                    (λ r c px, if masked_out mask r c then black else px) img)
     else Raise (RuntimeError
                   ("Mask color " +:+ mask_color +:+ " is not white or black!"))).

Definition pcv_readimage (filename : string) : M Image := λ tr,
  match decode world filename with
  | Some img => (Return img, tr ++ [ReadImage filename])
  | None =>
      (Raise (RuntimeError ("Failed to open " +:+ filename)),
       tr ++ [ReadImage filename])
  end.

Definition pcv_print_image (img : ndarray) (filename : string) : M unit :=
  emit (Saved filename (Picture img)).

Definition plt_savefig (curves : list (string * Series)) (filename : string)
  : M unit :=
  emit (Saved filename (Plot curves)).

Definition os_makedirs (dir : string) : M unit :=
  match makedirs_error world dir with
  | None => emit (MakeDirs dir)
  | Some msg => raise (OSError msg)
  end.

Definition nonzero (mask : BinaryMask) (p : Cell) : bool :=
  match Grid.cell mask p.1 p.2 with
  | Some v => negb (v =? 0)
  | None => false
  end.

Definition minimum (x : Z) (xs : list Z) : Z := fold_right Z.min x xs.
Definition maximum (x : Z) (xs : list Z) : Z := fold_right Z.max x xs.

(** Modelled from the spec: [cv2.boundingRect] is an OpenCV function whose
    body is not part of the repository.  Section 4.5: the minimal
    axis-aligned rectangle enclosing all FOREGROUND cells, returned as
    [(x, y, w, h)]: leftmost column, topmost row, number of columns and
    number of rows spanned; all zero for a mask without foreground. *)
Definition bounding_rect (mask : BinaryMask) : Z * Z * Z * Z :=
  match List.filter (nonzero mask) (Pcv.cells mask) with
  | [] => (0, 0, 0, 0)
  | p :: ps =>
      let x := minimum (Z.of_nat p.2) ((λ q, Z.of_nat q.2) <$> ps) in
      let y := minimum (Z.of_nat p.1) ((λ q, Z.of_nat q.1) <$> ps) in
      let x' := maximum (Z.of_nat p.2) ((λ q, Z.of_nat q.2) <$> ps) in
      let y' := maximum (Z.of_nat p.1) ((λ q, Z.of_nat q.1) <$> ps) in
      (x, y, x' - x + 1, y' - y + 1)
  end.

Definition cv2_boundingRect (mask : BinaryMask) : M (Z * Z * Z * Z) :=
  library_call "cv2.boundingRect" (Return (bounding_rect mask)).

(** *** Transformation functions *)

(** [gaussian_blur(img, channel="b")]; [None] is the omitted argument. *)
Definition gaussian_blur (img : Image) (channel : option string)
  : M BinaryMask :=
  let channel := default "b" channel in
  try_except
    (a_gray ←
       (if py_in channel ["l"; "a"; "b"] then pcv_rgb2gray_lab img channel
        else if py_in channel ["h"; "s"; "v"] then pcv_rgb2gray_hsv img channel
        else if py_in channel ["c"; "m"; "y"; "k"]
        then pcv_rgb2gray_cmyk img channel
        else raise (ValueError "Invalid channel specified."));
     bin_mask ← pcv_threshold_otsu a_gray "light";
     cleaned_mask ← pcv_fill_holes bin_mask;
     mret cleaned_mask)
    (λ e, print ("Error in gaussian_blur: " +:+ str e) ;; raise e).

Definition mask_objects (img : Image) (mask : BinaryMask) : M Image :=
  pcv_apply_mask img mask "white".

Definition remove_black (img : Image) : M Image :=
  gray_img ← library_call "cv2.cvtColor" (Return (Grid.map (bgr2gray lib) img));
  mask ← library_call "cv2.threshold"
           (Return (cv2_threshold_binary lib gray_img 20 255));
  pcv_apply_mask img mask "white".

(** The assignment [roi_image[mask != 0] = (0, 255, 0)] on a copy, for a
    mask of the shape of the picture; [roi] checks the shapes first. *)
Definition recolor (img : Image) (mask : BinaryMask) : Image :=
  Grid.imap (λ r c px, if nonzero mask (r, c) then (0, 255, 0) else px) img.

(** [roi_image[mask != 0] = (0, 255, 0)] needs a mask of the shape of the
    picture; numpy raises IndexError otherwise. *)
Definition roi (img : Image) (mask : BinaryMask) : M Image :=
  if same_shape img mask then
    let roi_image := recolor img mask in
    '(x, y, w, h) ← cv2_boundingRect mask;
    library_call "cv2.rectangle"
      (Return (cv2_rectangle lib roi_image (x, y) (x + w, y + h)
                 (255, 0, 0) 2))
  else raise (IndexError "boolean index did not match indexed array").

Definition analyze_object (img : Image) (mask : BinaryMask) : M Image :=
  library_call "pcv.analyze.size" (Return (analyze_size lib img mask)).

(** The comparison is evaluated by numpy on the index arrays. *)
Definition draw_circle (image : Image)
    (center : coordinate lib * coordinate lib) (radius : Z) (color : Pixel)
  : Image :=
  Grid.imap
    (λ x y px, if within_radius lib x y center radius then color else px)
    image.

Definition create_pseudolandmarks_image (image : Image) (mask : BinaryMask)
  : M Image :=
  let pseudolandmarks := image in
  '(top_x, bottom_x, center_v_x) ←
    library_call "pcv.homology.x_axis_pseudolandmarks"
      (Return (x_axis_pseudolandmarks lib pseudolandmarks mask));
  let colors := [(0, 0, 255); (255, 0, 255); (255, 0, 0)] in
  mret
    (fold_left
       (λ acc '(points, color),
          fold_left (λ acc' point, draw_circle acc' point 5 color) points acc)
       (zip [top_x; bottom_x; center_v_x] colors)
       pseudolandmarks).

Definition histogram_channels : list string :=
  ["hue"; "saturation"; "value"; "lightness"; "blue"; "green"; "red";
   "green-magenta"; "blue-yellow"].

Definition analyze_color (img : Image) (mask : BinaryMask) (output : string)
  : M unit :=
  try_except
    (observations ←
       library_call "pcv.analyze.color" (analyze_color_observations lib img mask);
     color_data ← dict_get observations "default_1";
     histograms ←
       map_m (λ channel,
                data ← dict_get color_data (channel +:+ "_frequencies");
                mret (channel, data))
             histogram_channels;
     plt_savefig histograms (path_join output "color_histogram.png"))
    (λ e, print ("Error in analyze_color: " +:+ str e) ;; raise e).

(** The body of [process_image] up to the write of the result; [None] is
    the early [return] of the color analysis. *)
Definition dispatch (img : Image) (output_dir transformation : string)
  : M (option ndarray) :=
  if String.eqb transformation "gaussian_blur" then
    result ← gaussian_blur img None; mret (Some (Gray result))
  else if String.eqb transformation "mask_objects" then
    mask ← gaussian_blur img None;
    result ← mask_objects img mask; mret (Some (Color result))
  else if String.eqb transformation "remove_black" then
    result ← remove_black img; mret (Some (Color result))
  else if String.eqb transformation "roi" then
    mask ← gaussian_blur img None;
    result ← roi img mask; mret (Some (Color result))
  else if String.eqb transformation "analyze_object" then
    mask ← gaussian_blur img None;
    result ← analyze_object img mask; mret (Some (Color result))
  else if String.eqb transformation "create_pseudolandmarks" then
    mask ← gaussian_blur img None;
    result ← create_pseudolandmarks_image img mask; mret (Some (Color result))
  else if String.eqb transformation "analyze_color" then
    mask ← gaussian_blur img None;
    analyze_color img mask output_dir ;;
    print "Color analysis saved." ;;
    mret None
  else raise (ValueError "Unsupported transformation selected.").

Definition process_image (img_path output_dir transformation : string)
  : M unit :=
  try_except
    (os_makedirs output_dir ;;
     img ← pcv_readimage img_path;
     r ← dispatch img output_dir transformation;
     match r with
     | None => mret tt
     | Some result =>
         pcv_print_image result
           (path_join output_dir (transformation +:+ ".png")) ;;
         print (transformation +:+ " result saved in " +:+ output_dir +:+ ".")
     end)
    (λ e, print ("Error processing image: " +:+ str e) ;; raise e).

(** *** Command line *)

Record Args := {
  input : string;
  output : string;
  transformation : string;
}.

Definition choices : list string :=
  ["gaussian_blur"; "mask_objects"; "remove_black"; "roi"; "analyze_object";
   "create_pseudolandmarks"; "analyze_color"].

(** [parser.parse_args()]: a transformation outside [choices] ends the
    program. *)
Definition parse_args (argv : Args) : M Args :=
  if py_in (transformation argv) choices then mret argv
  else raise (SystemExit 2).

Definition is_picture (file : string) : bool :=
  existsb (endswith (lower file)) ["jpg"; "jpeg"; "png"].

Definition main (argv : Args) : M unit :=
  args ← parse_args argv;
  if isfile world (input args) then
    process_image (input args) (output args) (transformation args)
  else if isdir world (input args) then
    for_each (listdir world (input args))
      (λ file,
         if is_picture file
         then process_image (path_join (input args) file) (output args)
                (transformation args)
         else mret tt)
  else print "Invalid input path. Provide an image or directory.".

End Program.

(** *** The Bayesian branch *)

Section Bayes.
(** [pcv.naive_bayes_classifier(rgb_img, pdf_file)]: one mask per class. *)
Context (naive_bayes_classifier :
           Image → string → outcome (gmap string BinaryMask)).

Definition bayes (img : Image) : M BinaryMask :=
  mask ← library_call "pcv.naive_bayes_classifier"
           (naive_bayes_classifier img "./output.txt");
  plant_mask ← dict_get mask "plant";
  plant_mask ← pcv_fill_holes plant_mask;
  mret plant_mask.

End Bayes.

(** ** Vocabulary for the properties of the consumers *)

(** The cell in row [r], column [c] passes the test of [draw_circle] with
    radius 5 for one of the points. *)
Definition marked (lib : Library)
    (points : list (coordinate lib * coordinate lib)) (r c : nat) : bool :=
  existsb (λ point, within_radius lib r c point 5) points.

(** Every cell of the mask is 0 or 255. *)
Definition binary (mask : BinaryMask) : Prop :=
  ∀ r c v, Grid.cell mask r c = Some v → v = BACKGROUND ∨ v = FOREGROUND.


(** ** The pipeline as the design document states it *)

Module Spec.

Inductive Family := Lab | HSV | CMYK.

(** The closed set of channel selectors. *)
Inductive Selector :=
| sel_l | sel_a | sel_b
| sel_h | sel_s | sel_v
| sel_c | sel_m | sel_y | sel_k.

Definition selectors : list Selector :=
  [sel_l; sel_a; sel_b; sel_h; sel_s; sel_v; sel_c; sel_m; sel_y; sel_k].

Definition family (s : Selector) : Family :=
  match s with
  | sel_l | sel_a | sel_b => Lab
  | sel_h | sel_s | sel_v => HSV
  | sel_c | sel_m | sel_y | sel_k => CMYK
  end.

(** Position of the channel within its family. *)
Definition index (s : Selector) : nat :=
  match s with
  | sel_l | sel_h | sel_c => 0
  | sel_a | sel_s | sel_m => 1
  | sel_b | sel_v | sel_y => 2
  | sel_k => 3
  end.

Definition code (s : Selector) : string :=
  match s with
  | sel_l => "l" | sel_a => "a" | sel_b => "b"
  | sel_h => "h" | sel_s => "s" | sel_v => "v"
  | sel_c => "c" | sel_m => "m" | sel_y => "y" | sel_k => "k"
  end.

(** The ten recognized channel codes. *)
Definition recognized_codes : list string := code <$> selectors.

Definition selector_of_code (c : string) : option Selector :=
  find (λ s, String.eqb c (code s)) selectors.

Definition default_selector : Selector := sel_b.

(** The channels of one pixel in a colorspace. *)
Definition components (lib : Library) (f : Family) (px : Pixel) : list Z :=
  match f with
  | Lab => [(to_lab lib px).1.1; (to_lab lib px).1.2; (to_lab lib px).2]
  | HSV => [(to_hsv lib px).1.1; (to_hsv lib px).1.2; (to_hsv lib px).2]
  | CMYK => [(to_cmyk lib px).1.1.1; (to_cmyk lib px).1.1.2;
             (to_cmyk lib px).1.2; (to_cmyk lib px).2]
  end.

(** 4.1 [project(image, selector)] *)
Definition project (lib : Library) (image : Image) (s : Selector)
  : GrayscaleBuffer :=
  Grid.map (λ px, nth (index s) (components lib (family s) px) 0) image.

(** 4.4 [extract_mask(image, channel)]: 4.1, then 4.2 with the polarity
    fixed to LIGHT_IS_OBJECT, then 4.3. *)
Definition extract_mask (lib : Library) (image : Image) (s : Selector)
  : BinaryMask :=
  Pcv.fill_holes (Otsu.threshold (project lib image s) Otsu.LIGHT_IS_OBJECT).

(** The library operations one extraction performs, in order. *)
Definition conversion (f : Family) : string :=
  match f with
  | Lab => "pcv.rgb2gray_lab"
  | HSV => "pcv.rgb2gray_hsv"
  | CMYK => "pcv.rgb2gray_cmyk"
  end.

Definition pipeline_calls (s : Selector) : list event :=
  [Call (conversion (family s)); Call "pcv.threshold.otsu";
   Call "pcv.fill_holes"].

(** The error of an unrecognized selector, as the program raises it. *)
Definition InvalidChannelError : exn := ValueError "Invalid channel specified.".

(** A valid image: a rectangular grid with positive width and height. *)
Definition valid_image (image : Image) : Prop :=
  Grid.rectangular image
  ∧ (0 < Grid.height image)%nat ∧ (0 < Grid.width image)%nat.

(** All pixels of the buffer have the same intensity. *)
Definition uniform (gray : GrayscaleBuffer) : Prop :=
  ∃ v, ∀ r c x, Grid.cell gray r c = Some x → x = v.

(** Thresholding operations recorded in a trace, in order. *)
Definition thresholdings (tr : list event) : list string :=
  omap (λ e, match e with
             | Call fn =>
                 if py_in fn ["pcv.threshold.otsu"; "cv2.threshold"]
                 then Some fn else None
             | _ => None
             end) tr.

(** Pictures the program tried to read, in order. *)
Definition pictures_read (tr : list event) : list string :=
  omap (λ e, match e with ReadImage path => Some path | _ => None end) tr.

(** The transformations that hand the mask of the pipeline to a consumer. *)
Definition pipeline_consumers : list string :=
  ["gaussian_blur"; "mask_objects"; "roi"; "analyze_object";
   "create_pseudolandmarks"].

(** What a transformation other than [remove_black] does with the mask,
    once [process_image] has it: the rest of its branch. *)
Definition consumer (lib : Library) (img : Image)
    (output_dir transformation : string) (mask : BinaryMask)
  : M (option ndarray) :=
  if String.eqb transformation "gaussian_blur" then
    mret (Some (Gray mask))
  else if String.eqb transformation "mask_objects" then
    result ← mask_objects img mask; mret (Some (Color result))
  else if String.eqb transformation "roi" then
    result ← roi lib img mask; mret (Some (Color result))
  else if String.eqb transformation "analyze_object" then
    result ← analyze_object lib img mask; mret (Some (Color result))
  else if String.eqb transformation "create_pseudolandmarks" then
    result ← create_pseudolandmarks_image lib img mask;
    mret (Some (Color result))
  else
    analyze_color lib img mask output_dir ;;
    print "Color analysis saved." ;;
    mret None.

(** The picture [remove_black] returns: white where the grayscale
    conversion is at most 20 under [cv2.threshold], else the pixel. *)
Definition without_black (lib : Library) (img : Image) : Image :=
  Grid.imap
    (λ r c px,
       if masked_out
            (cv2_threshold_binary lib (Grid.map (bgr2gray lib) img) 20 255) r c
       then white else px)
    img.

(** The only thresholding one run of [process_image] performs is that of
    the mask pipeline. *)
Definition thresholds_in_pipeline_only (lib : Library) (world : World)
    (img_path output_dir transformation : string) : Prop :=
  ∀ tr,
    thresholdings
      (run (process_image lib world img_path output_dir transformation) tr).2
    = thresholdings tr ++ ["pcv.threshold.otsu"].

(** A directory run reads every picture listed in the directory. *)
Definition every_picture_processed (lib : Library) (world : World)
    (argv : Args) : Prop :=
  ∀ file,
    In file (listdir world (input argv)) → is_picture file = true →
    In (path_join (input argv) file)
       (pictures_read (run (main lib world argv) []).2).

(** The rectangle with opposite corner pixels [pt1] and [pt2] (both
    inclusive) is the smallest one around the foreground of [mask]: every
    foreground cell lies within it and each of its four sides holds one. *)
Definition bounds_exactly (pt1 pt2 : Z * Z) (mask : BinaryMask) : Prop :=
  (∀ p, nonzero mask p = true →
        pt1.1 ≤ Z.of_nat p.2 ≤ pt2.1 ∧ pt1.2 ≤ Z.of_nat p.1 ≤ pt2.2)
  ∧ (∃ p, nonzero mask p = true ∧ Z.of_nat p.2 = pt1.1)
  ∧ (∃ p, nonzero mask p = true ∧ Z.of_nat p.2 = pt2.1)
  ∧ (∃ p, nonzero mask p = true ∧ Z.of_nat p.1 = pt1.2)
  ∧ (∃ p, nonzero mask p = true ∧ Z.of_nat p.1 = pt2.2).

End Spec.

(** ** A concrete environment *)

Module Sample.

Definition brightest (px : Pixel) : Z := Z.max px.1.1 (Z.max px.1.2 px.2).
Definition darkest (px : Pixel) : Z := Z.min px.1.1 (Z.min px.1.2 px.2).

(** Outline of the rectangle with corners [pt1], [pt2], one pixel wide. *)
Definition outline (img : Image) (pt1 pt2 : Z * Z) (color : Pixel) : Image :=
  Grid.imap
    (λ r c px,
       let x := Z.of_nat c in
       let y := Z.of_nat r in
       if ((pt1.1 <=? x) && (x <=? pt2.1) && (pt1.2 <=? y) && (y <=? pt2.2))
          && ((x =? pt1.1) || (x =? pt2.1) || (y =? pt1.2) || (y =? pt2.2))
       then color else px)
    img.

Definition frequencies : gmap string Series :=
  list_to_map ((λ ch, (ch +:+ "_frequencies", [25; 50; 25])) <$> histogram_channels).

(** Integer stand-ins for the colour conversions; pixels are (b, g, r). *)
Definition library : Library := {|
  to_lab px :=
    let '(b, g, r) := px in
    ((r + g + b) / 3, 128 + (r - g) / 2, 128 + ((r + g) / 2 - b) / 2);
  to_hsv px := (0, brightest px - darkest px, brightest px);
  to_cmyk px :=
    let '(b, g, r) := px in
    (brightest px - r, brightest px - g, brightest px - b, 255 - brightest px);
  bgr2gray px := let '(b, g, r) := px in (299 * r + 587 * g + 114 * b) / 1000;
  cv2_threshold_binary src thresh maxval :=
    Grid.map (λ v, if thresh <? v then maxval else 0) src;
  analyze_size img _ := img;
  coordinate := Z;
  x_axis_pseudolandmarks _ _ := ([(1, 0)], [(1, 3)], [(1, 1)]);
  within_radius x y center radius :=
    (Z.of_nat x - center.2) ^ 2 + (Z.of_nat y - center.1) ^ 2 <=? radius ^ 2;
  analyze_color_observations _ _ :=
    Return (list_to_map [("default_1", frequencies)]);
  cv2_rectangle img pt1 pt2 color _ := outline img pt1 pt2 color;
|}.

Definition soil : Pixel := (40, 40, 40).
Definition leaf : Pixel := (20, 200, 180).

(** A 4 x 4 picture with a 2 x 2 leaf block on a dark ground. *)
Definition image : Image :=
  [[soil; soil; soil; soil];
   [soil; leaf; leaf; soil];
   [soil; leaf; leaf; soil];
   [soil; soil; soil; soil]].

(** A ring of foreground around one background cell. *)
Definition ring : BinaryMask :=
  [[0; 0; 0; 0; 0];
   [0; 255; 255; 255; 0];
   [0; 255; 0; 255; 0];
   [0; 255; 255; 255; 0];
   [0; 0; 0; 0; 0]].

(** Foreground around a background cell that meets the outside only across
    a corner. *)
Definition corner_leak : BinaryMask :=
  [[255; 255; 255; 0];
   [255; 0; 255; 0];
   [255; 255; 0; 0];
   [0; 0; 0; 0]].

(** A single foreground cell. *)
Definition dot : BinaryMask :=
  [[0; 0; 0; 0];
   [0; 255; 0; 0];
   [0; 0; 0; 0];
   [0; 0; 0; 0]].

(** A directory [leaves] with two pictures, the first of which cannot be
    decoded, and a single readable file [leaf.jpg]. *)
Definition world : World := {|
  isfile p := String.eqb p "leaf.jpg";
  isdir p := String.eqb p "leaves";
  listdir p := if String.eqb p "leaves" then ["a.png"; "b.png"] else [];
  decode p :=
    if String.eqb p "leaf.jpg" || String.eqb p "leaves/b.png"
    then Some image else None;
  makedirs_error p :=
    if String.eqb p "" then Some "[Errno 2] No such file or directory: ''"
    else None;
|}.

(** The sample library with other observations of the color analysis. *)
Definition observing (obs : gmap string (gmap string Series)) : Library := {|
  to_lab := to_lab library;
  to_hsv := to_hsv library;
  to_cmyk := to_cmyk library;
  bgr2gray := bgr2gray library;
  cv2_threshold_binary := cv2_threshold_binary library;
  analyze_size := analyze_size library;
  coordinate := coordinate library;
  x_axis_pseudolandmarks := x_axis_pseudolandmarks library;
  within_radius := within_radius library;
  analyze_color_observations _ _ := Return obs;
  cv2_rectangle := cv2_rectangle library;
|}.

(** A classifier that finds the ring as the plant, and one that knows no
    plant class. *)
Definition classifier (_ : Image) (_ : string)
  : outcome (gmap string BinaryMask) :=
  Return (list_to_map [("plant", ring); ("background", dot)]).

Definition classifier_without_plant (_ : Image) (_ : string)
  : outcome (gmap string BinaryMask) :=
  Return (list_to_map [("background", dot)]).


End Sample.

(** * Properties *)

(** ** Properties of the grid operations *)

Section GridFacts.
Context {A B : Type}.

Lemma cell_imap (f : nat → nat → A → B) (g : Grid.t A) r c :
  Grid.cell (Grid.imap f g) r c = f r c <$> Grid.cell g r c.
Proof.
  unfold Grid.cell, Grid.imap.
  rewrite list_lookup_imap.
  destruct (g !! r) as [row|]; simpl; [|done].
  by rewrite list_lookup_imap.
Qed.

Lemma cell_map (f : A → B) (g : Grid.t A) r c :
  Grid.cell (Grid.map f g) r c = f <$> Grid.cell g r c.
Proof.
  unfold Grid.cell, Grid.map.
  rewrite list_lookup_fmap.
  destruct (g !! r) as [row|]; simpl; [|done].
  by rewrite list_lookup_fmap.
Qed.

Lemma row_lengths_imap (f : nat → nat → A → B) (g : Grid.t A) :
  Grid.row_lengths (Grid.imap f g) = Grid.row_lengths g.
Proof.
  unfold Grid.row_lengths, Grid.imap.
  apply list_eq; intros i.
  rewrite !list_lookup_fmap, list_lookup_imap.
  destruct (g !! i); simpl; [|done].
  by rewrite length_imap.
Qed.

Lemma row_lengths_map (f : A → B) (g : Grid.t A) :
  Grid.row_lengths (Grid.map f g) = Grid.row_lengths g.
Proof.
  unfold Grid.row_lengths, Grid.map.
  rewrite <- list_fmap_compose.
  apply list_fmap_ext; intros i row _; simpl.
  by rewrite length_fmap.
Qed.

Lemma row_lengths_height (g : Grid.t A) (g' : Grid.t B) :
  Grid.row_lengths g' = Grid.row_lengths g → Grid.height g' = Grid.height g.
Proof.
  unfold Grid.row_lengths, Grid.height; intros E.
  by rewrite <- (length_fmap length g'), E, length_fmap.
Qed.

Lemma row_lengths_width (g : Grid.t A) (g' : Grid.t B) :
  Grid.row_lengths g' = Grid.row_lengths g → Grid.width g' = Grid.width g.
Proof.
  unfold Grid.row_lengths, Grid.width.
  destruct g, g'; simpl; intros E; congruence.
Qed.

Lemma grid_ext (g g' : Grid.t A) :
  Grid.row_lengths g = Grid.row_lengths g' →
  (∀ r c, Grid.cell g r c = Grid.cell g' r c) →
  g = g'.
Proof.
  intros Hl Hc. apply list_eq; intros r.
  assert (length <$> g !! r = length <$> g' !! r) as Hr.
  { unfold Grid.row_lengths in Hl. by rewrite <- !list_lookup_fmap, Hl. }
  destruct (g !! r) as [row|] eqn:E, (g' !! r) as [row'|] eqn:E';
    simpl in Hr; try done.
  f_equal. apply list_eq; intros c.
  specialize (Hc r c). unfold Grid.cell in Hc.
  by rewrite E, E' in Hc.
Qed.

Lemma row_lengths_rectangular (g : Grid.t A) (g' : Grid.t B) :
  Grid.row_lengths g' = Grid.row_lengths g →
  Grid.rectangular g → Grid.rectangular g'.
Proof.
  intros E Hr. unfold Grid.rectangular in *.
  rewrite (row_lengths_width _ _ E).
  apply Forall_lookup; intros i row Hi.
  assert (Grid.row_lengths g' !! i = Some (length row)) as Hl.
  { unfold Grid.row_lengths. by rewrite list_lookup_fmap, Hi. }
  rewrite E in Hl. unfold Grid.row_lengths in Hl.
  rewrite list_lookup_fmap in Hl.
  destruct (g !! i) as [row0|] eqn:Hg; simpl in Hl; [|done].
  rewrite Forall_lookup in Hr. specialize (Hr i row0 Hg). congruence.
Qed.

End GridFacts.

(** ** Region growing from the boundary *)

Section FillHoles.
Import Pcv.
Context (adj : Cell → Cell → bool).
Implicit Types (m : BinaryMask) (p q : Cell) (R : list Cell).

Lemma In_grow m R p :
  In p (grow adj m R) ↔
  In p (cells m) ∧ is_background m p = true
  ∧ (on_border m p = true ∨ ∃ q, In q R ∧ adj p q = true).
Proof.
  unfold grow. rewrite filter_In, andb_true_iff, orb_true_iff, existsb_exists.
  tauto.
Qed.

Lemma grow_mono m R R' : incl R R' → incl (grow adj m R) (grow adj m R').
Proof.
  intros HR p. rewrite !In_grow.
  intros (Hc & Hb & [Hd | (q & Hq & Ha)]); eauto 8.
Qed.

Lemma grow_n_succ m k : incl (grow_n adj m k) (grow_n adj m (S k)).
Proof.
  induction k as [|k IH]; [intros p []|].
  change (incl (grow adj m (grow_n adj m k)) (grow adj m (grow_n adj m (S k)))).
  by apply grow_mono.
Qed.

Lemma grow_n_le m k k' : (k ≤ k')%nat → incl (grow_n adj m k) (grow_n adj m k').
Proof.
  induction 1 as [|k' _ IH]; [apply incl_refl|].
  eapply incl_tran; [exact IH | apply grow_n_succ].
Qed.

Lemma grow_n_background m k p :
  In p (grow_n adj m k) → In p (cells m) ∧ is_background m p = true.
Proof.
  destruct k as [|k]; [intros []|].
  intros Hp. change (In p (grow adj m (grow_n adj m k))) in Hp.
  apply In_grow in Hp. tauto.
Qed.

Lemma outer_is_background m p :
  In p (outer_background adj m) → is_background m p = true.
Proof. intros H. by apply grow_n_background in H as [_ ?]. Qed.

(** *** The shape of the mask is kept *)

Lemma fill_holes_row_lengths m :
  Grid.row_lengths (fill_holes_with adj m) = Grid.row_lengths m.
Proof. apply row_lengths_imap. Qed.

Lemma fill_holes_cells m : cells (fill_holes_with adj m) = cells m.
Proof.
  unfold cells.
  by rewrite (row_lengths_height _ _ (fill_holes_row_lengths m)),
             (row_lengths_width _ _ (fill_holes_row_lengths m)).
Qed.

Lemma fill_holes_on_border m p : on_border (fill_holes_with adj m) p = on_border m p.
Proof.
  unfold on_border.
  by rewrite (row_lengths_height _ _ (fill_holes_row_lengths m)),
             (row_lengths_width _ _ (fill_holes_row_lengths m)).
Qed.

Lemma cell_fill_holes m r c :
  Grid.cell (fill_holes_with adj m) r c
  = fill_cell (outer_background adj m) r c <$> Grid.cell m r c.
Proof. apply cell_imap. Qed.

(** The background of the filled mask is the outer background of the
    original one. *)
Lemma fill_holes_background m p :
  is_background (fill_holes_with adj m) p = true ↔ In p (outer_background adj m).
Proof.
  destruct p as [r c]. unfold is_background at 1; simpl.
  rewrite cell_fill_holes. split.
  - destruct (Grid.cell m r c) as [v|]; simpl; [|done].
    unfold fill_cell.
    destruct (v =? BACKGROUND) eqn:Ev; simpl.
    + case_bool_decide as Hin; simpl; [|done].
      intros _. by apply list_elem_of_In.
    + by rewrite Ev.
  - intros Hin. pose proof (outer_is_background _ _ Hin) as Hb.
    unfold is_background in Hb; simpl in Hb.
    destruct (Grid.cell m r c) as [v|]; simpl; [|done].
    unfold fill_cell. rewrite Hb; simpl.
    rewrite bool_decide_eq_true_2; [done|]. by apply list_elem_of_In.
Qed.

(** *** Filling leaves the outer background as it is *)

Lemma grow_n_fill_holes_incl m k :
  incl (grow_n adj (fill_holes_with adj m) k) (outer_background adj m).
Proof.
  intros p Hp. apply fill_holes_background.
  by apply grow_n_background in Hp as [_ ?].
Qed.

Lemma grow_n_incl_fill_holes m k :
  (k ≤ length (cells m))%nat →
  incl (grow_n adj m k) (grow_n adj (fill_holes_with adj m) k).
Proof.
  induction k as [|k IH]; [intros _ p []|].
  intros Hk p Hp.
  assert (In p (outer_background adj m)) as Hout.
  { by apply (grow_n_le m (S k)). }
  change (In p (grow adj m (grow_n adj m k))) in Hp.
  change (In p (grow adj (fill_holes_with adj m) (grow_n adj (fill_holes_with adj m) k))).
  apply In_grow in Hp as (Hc & _ & Hreach). apply In_grow.
  rewrite fill_holes_cells, fill_holes_on_border, fill_holes_background.
  split_and!; [done..|].
  destruct Hreach as [?|(q & Hq & Ha)]; [by left|].
  right. exists q. split; [|done]. apply IH; [lia|done].
Qed.

Lemma outer_background_fill_holes m p :
  In p (outer_background adj (fill_holes_with adj m)) ↔ In p (outer_background adj m).
Proof.
  split.
  - apply grow_n_fill_holes_incl.
  - unfold outer_background at 2. rewrite fill_holes_cells.
    by apply grow_n_incl_fill_holes.
Qed.

Lemma fill_cell_ext R R' r c v :
  (In (r, c) R ↔ In (r, c) R') → fill_cell R r c v = fill_cell R' r c v.
Proof.
  intros H. unfold fill_cell.
  rewrite (bool_decide_ext ((r, c) ∈ R) ((r, c) ∈ R')); [done|].
  by rewrite !list_elem_of_In.
Qed.

Lemma fill_cell_twice m r c v :
  fill_cell (outer_background adj m) r c (fill_cell (outer_background adj m) r c v)
  = fill_cell (outer_background adj m) r c v.
Proof.
  unfold fill_cell.
  destruct (v =? BACKGROUND) eqn:Ev; simpl.
  - case_bool_decide; simpl; [by rewrite Ev|done].
  - by rewrite Ev.
Qed.

(** *** The flood fill computes boundary connectivity *)

Lemma filter_incl_or_longer {A} (f g : A → bool) (l : list A) :
  (∀ x, In x l → f x = true → g x = true) →
  (∀ x, In x l → g x = true → f x = true)
  ∨ (length (List.filter f l) < length (List.filter g l))%nat.
Proof.
  induction l as [|a l IH]; intros Hfg; [left; intros ? []|].
  assert (length (List.filter f l) ≤ length (List.filter g l))%nat as Hle.
  { clear IH. induction l as [|b l IHl]; simpl; [lia|].
    assert (∀ x, In x (a :: l) → f x = true → g x = true) as Hfg'.
    { intros x [->|?]; apply Hfg; simpl; auto. }
    specialize (IHl Hfg').
    pose proof (Hfg b (or_intror (or_introl eq_refl))) as Hb.
    destruct (f b), (g b); simpl;
      first [lia | specialize (Hb eq_refl); discriminate]. }
  pose proof (Hfg a (or_introl eq_refl)) as Ha.
  assert (∀ x, In x l → f x = true → g x = true) as Hfg'.
  { intros x Hx. apply Hfg. by right. }
  destruct (IH Hfg') as [IH'|IH'].
  - simpl. destruct (f a) eqn:Efa, (g a) eqn:Ega; simpl.
    + left. intros x [->|Hx]; auto.
    + specialize (Ha eq_refl); discriminate.
    + right. lia.
    + left. intros x [->|Hx]; [congruence | auto].
  - right. simpl. destruct (f a), (g a); simpl;
      first [lia | specialize (Ha eq_refl); discriminate].
Qed.

Lemma grow_n_length m k : (length (grow_n adj m k) ≤ length (cells m))%nat.
Proof.
  destruct k as [|k]; simpl; [lia|].
  change (grow_n adj m (S k)) with (grow adj m (grow_n adj m k)).
  apply filter_length_le.
Qed.

Lemma grow_n_progress m k :
  stable adj m k ∨ (length (grow_n adj m k) < length (grow_n adj m (S k)))%nat.
Proof.
  unfold stable. destruct k as [|k].
  - destruct (grow_n adj m 1) as [|p l]; [left; apply incl_refl | right; simpl; lia].
  - pose proof (grow_n_succ m (S k)) as Hmono.
    change (grow_n adj m (S (S k))) with (grow adj m (grow_n adj m (S k))) in *.
    change (grow_n adj m (S k)) with (grow adj m (grow_n adj m k)) in *.
    unfold grow in Hmono |- * at 1 3 4.
    match goal with
    | |- incl (List.filter ?g _) (List.filter ?f _) ∨ _ =>
        destruct (filter_incl_or_longer f g (cells m)) as [H|H]
    end.
    + intros x Hx Hf.
      assert (In x (List.filter
        (λ p, is_background m p
              && (on_border m p || existsb (adj p) (grow_n adj m k)))
        (cells m))) as Hin by (apply filter_In; auto).
      apply Hmono, filter_In in Hin. tauto.
    + left. intros x Hx. apply filter_In in Hx as [Hc Hg].
      apply filter_In. eauto.
    + by right.
Qed.

Lemma stable_succ m k : stable adj m k → stable adj m (S k).
Proof. unfold stable. intros H. by apply (grow_mono m). Qed.

Lemma stable_le m k k' : (k ≤ k')%nat → stable adj m k → stable adj m k'.
Proof. induction 1; auto using stable_succ. Qed.

Lemma stable_within m k :
  (∃ j, (j ≤ k)%nat ∧ stable adj m j) ∨ (S k ≤ length (grow_n adj m (S k)))%nat.
Proof.
  induction k as [|k IH].
  - destruct (grow_n_progress m 0) as [H|H]; [left; eauto | right; lia].
  - destruct IH as [(j & Hj & Hs)|IH]; [left; eauto|].
    destruct (grow_n_progress m (S k)) as [H|H]; [left; eauto | right; lia].
Qed.

(** The number of rounds is enough: one more round adds nothing. *)
Lemma outer_background_closed m :
  incl (grow adj m (outer_background adj m)) (outer_background adj m).
Proof.
  change (stable adj m (length (cells m))).
  destruct (stable_within m (length (cells m))) as [(j & Hj & Hs)|H].
  - by apply (stable_le m j).
  - pose proof (grow_n_length m (S (length (cells m)))). lia.
Qed.

Lemma grow_n_touches_boundary m k p :
  In p (grow_n adj m k) → touches_boundary adj m p.
Proof.
  revert p. induction k as [|k IH]; intros p; [intros []|].
  intros Hp. change (In p (grow adj m (grow_n adj m k))) in Hp.
  apply In_grow in Hp as (Hc & Hb & [Hd|(q & Hq & Ha)]).
  - by apply tb_border.
  - apply (tb_step adj m p q); auto.
Qed.

Lemma outer_background_spec m p :
  In p (outer_background adj m) ↔ touches_boundary adj m p.
Proof.
  split; [apply grow_n_touches_boundary|].
  induction 1 as [p Hc Hb Hd | p q _ IH Hc Hb Ha];
    apply outer_background_closed, In_grow; eauto 8.
Qed.

(** Section 4.3 read cell by cell: a BACKGROUND cell whose component does
    not touch the boundary becomes FOREGROUND, every other cell is kept. *)
Lemma fill_holes_spec m r c v :
  Grid.cell m r c = Some v →
  (v = BACKGROUND → ¬ touches_boundary adj m (r, c) →
     Grid.cell (fill_holes_with adj m) r c = Some FOREGROUND)
  ∧ (v ≠ BACKGROUND ∨ touches_boundary adj m (r, c) →
     Grid.cell (fill_holes_with adj m) r c = Some v).
Proof.
  intros Hv. rewrite cell_fill_holes, Hv; simpl. unfold fill_cell.
  rewrite <- outer_background_spec, <- list_elem_of_In. split.
  - intros -> Hn. simpl. by rewrite bool_decide_eq_false_2.
  - intros [Hne|Hin].
    + apply Z.eqb_neq in Hne. by rewrite Hne.
    + rewrite (bool_decide_eq_true_2 _ Hin), andb_false_r. done.
Qed.

(** Filling only turns BACKGROUND into FOREGROUND, whatever the
    connectivity. *)
Lemma fill_holes_with_monotone m r c v :
  Grid.cell m r c = Some v →
  (v = FOREGROUND → Grid.cell (fill_holes_with adj m) r c = Some FOREGROUND)
  ∧ (Grid.cell (fill_holes_with adj m) r c = Some v
     ∨ (v = BACKGROUND
        ∧ Grid.cell (fill_holes_with adj m) r c = Some FOREGROUND)).
Proof.
  intros Hv. rewrite cell_fill_holes, Hv; simpl. unfold fill_cell. split.
  - by intros ->.
  - destruct (v =? BACKGROUND) eqn:Ev; simpl; [|by left].
    apply Z.eqb_eq in Ev as ->.
    destruct (bool_decide _); simpl; [by left | by right].
Qed.

(** Filling twice is filling once, whatever the connectivity. *)
Lemma fill_holes_with_idempotent m :
  fill_holes_with adj (fill_holes_with adj m) = fill_holes_with adj m.
Proof.
  apply grid_ext.
  - apply fill_holes_row_lengths.
  - intros r c.
    rewrite (cell_fill_holes (fill_holes_with adj m)), cell_fill_holes.
    destruct (Grid.cell m r c) as [v|] eqn:Hv; simpl; [|done].
    f_equal.
    rewrite (fill_cell_ext _ (outer_background adj m))
      by apply outer_background_fill_holes.
    apply fill_cell_twice.
Qed.

End FillHoles.

(** C3: hole filling never removes foreground.  A cell labeled FOREGROUND
    in [m] is labeled FOREGROUND in [fill_holes m], and the only change the
    operation makes to any cell is BACKGROUND to FOREGROUND. *)
Theorem fill_holes_monotone (m : BinaryMask) r c v :
  Grid.cell m r c = Some v →
  (v = FOREGROUND → Grid.cell (Pcv.fill_holes m) r c = Some FOREGROUND)
  ∧ (Grid.cell (Pcv.fill_holes m) r c = Some v
     ∨ (v = BACKGROUND ∧ Grid.cell (Pcv.fill_holes m) r c = Some FOREGROUND)).
Proof. apply fill_holes_with_monotone. Qed.

(** C4: hole filling is idempotent:
    [fill_holes (fill_holes m) = fill_holes m] for every mask. *)
Theorem fill_holes_idempotent (m : BinaryMask) :
  Pcv.fill_holes (Pcv.fill_holes m) = Pcv.fill_holes m.
Proof. apply fill_holes_with_idempotent. Qed.

(** The shape of the mask is kept. *)
Lemma fill_holes_shape (m : BinaryMask) :
  Grid.row_lengths (Pcv.fill_holes m) = Grid.row_lengths m.
Proof. apply fill_holes_row_lengths. Qed.


(** ** Running computations *)

#[global] Arguments Pcv.fill_holes : simpl never.
#[global] Arguments Pcv.fill_holes_with : simpl never.
#[global] Arguments Otsu.threshold : simpl never.
#[global] Arguments Otsu.otsu_threshold : simpl never.
#[global] Arguments Grid.map : simpl never.
#[global] Arguments Grid.imap : simpl never.
#[global] Arguments path_join : simpl never.
#[global] Arguments String.append : simpl never.

Section Effects.
Context {A B : Type}.
Implicit Types (tr : list event).

Lemma run_ret (a : A) tr : run (mret a) tr = (Return a, tr).
Proof. reflexivity. Qed.

Lemma run_bind (m : M A) (f : A → M B) tr :
  run (m ≫= f) tr
  = match run m tr with
    | (Return a, tr') => run (f a) tr'
    | (Raise e, tr') => (Raise e, tr')
    end.
Proof. reflexivity. Qed.

Lemma run_raise (e : exn) tr : run (raise e : M A) tr = (Raise e, tr).
Proof. reflexivity. Qed.

Lemma run_library_call fn (r : outcome A) tr :
  run (library_call fn r) tr = (r, tr ++ [Call fn]).
Proof. reflexivity. Qed.

Lemma run_try_except (body : M A) (handler : exn → M A) tr :
  run (try_except body handler) tr
  = match run body tr with
    | (Raise e, tr') =>
        if is_Exception e then run (handler e) tr' else (Raise e, tr')
    | r => r
    end.
Proof. unfold run, try_except. by destruct (body tr) as [[]]. Qed.

End Effects.

Lemma run_emit e tr : run (emit e) tr = (Return tt, tr ++ [e]).
Proof. reflexivity. Qed.

Lemma run_print line tr : run (print line) tr = (Return tt, tr ++ [Stdout line]).
Proof. reflexivity. Qed.

Lemma thresholdings_app tr tr' :
  Spec.thresholdings (tr ++ tr') = Spec.thresholdings tr ++ Spec.thresholdings tr'.
Proof. apply omap_app. Qed.

Lemma written_app tr tr' : written (tr ++ tr') = written tr ++ written tr'.
Proof. apply omap_app. Qed.

Lemma pictures_read_app tr tr' :
  Spec.pictures_read (tr ++ tr')
  = Spec.pictures_read tr ++ Spec.pictures_read tr'.
Proof. apply omap_app. Qed.


(** ** The mask pipeline *)

Section Pipeline.
Context (lib : Library).
Implicit Types (img : Image) (tr : list event).

Lemma selector_of_code_inv c s :
  Spec.selector_of_code c = Some s → c = Spec.code s.
Proof.
  unfold Spec.selector_of_code. intros H.
  apply find_some in H as [_ H]. by apply String.eqb_eq in H.
Qed.

Lemma selector_of_code_code s : Spec.selector_of_code (Spec.code s) = Some s.
Proof. by destruct s. Qed.

Lemma recognized_selector c :
  In c Spec.recognized_codes → ∃ s, Spec.selector_of_code c = Some s.
Proof.
  unfold Spec.recognized_codes. rewrite <- list_elem_of_In, list_elem_of_fmap.
  intros (s & -> & _). exists s. apply selector_of_code_code.
Qed.

(** One extraction, step by step. *)
Lemma gaussian_blur_run img s tr :
  run (gaussian_blur lib img (Some (Spec.code s))) tr
  = (Return (Spec.extract_mask lib img s), tr ++ Spec.pipeline_calls s).
Proof.
  destruct s;
    cbv -[Pcv.fill_holes Otsu.threshold Grid.map app to_lab to_hsv to_cmyk];
    by rewrite <- !app_assoc.
Qed.

Lemma gaussian_blur_default img tr :
  run (gaussian_blur lib img None) tr
  = run (gaussian_blur lib img (Some (Spec.code Spec.default_selector))) tr.
Proof. reflexivity. Qed.

Lemma extract_mask_row_lengths img s :
  Grid.row_lengths (Spec.extract_mask lib img s) = Grid.row_lengths img.
Proof.
  unfold Spec.extract_mask, Otsu.threshold, Spec.project.
  rewrite fill_holes_shape.
  destruct (Otsu.otsu_threshold _); by rewrite !row_lengths_map.
Qed.

(** C1: on a valid image and a recognized selector, [gaussian_blur] returns
    the projection onto the selected channel of its family, thresholded by
    the variance-maximizing threshold with LIGHT_IS_OBJECT polarity (cells at
    or above the threshold are FOREGROUND), then hole-filled; without a
    channel argument the selector is "b". *)
Theorem gaussian_blur_is_extract_mask img c s tr :
  Spec.valid_image img →
  Spec.selector_of_code c = Some s →
  run (gaussian_blur lib img (Some c)) tr
  = (Return (Pcv.fill_holes
               (Otsu.threshold (Spec.project lib img s) Otsu.LIGHT_IS_OBJECT)),
     tr ++ [Call (Spec.conversion (Spec.family s));
            Call "pcv.threshold.otsu"; Call "pcv.fill_holes"])
  ∧ (∀ t, Otsu.otsu_threshold (concat (Spec.project lib img s)) = Some t →
          Otsu.threshold (Spec.project lib img s) Otsu.LIGHT_IS_OBJECT
          = Grid.map (λ v, if t <=? v then FOREGROUND else BACKGROUND)
                     (Spec.project lib img s))
  ∧ run (gaussian_blur lib img None) tr = run (gaussian_blur lib img (Some "b")) tr.
Proof.
  intros _ Hs. apply selector_of_code_inv in Hs as ->. split_and!.
  - rewrite gaussian_blur_run.
    unfold Spec.extract_mask, Spec.pipeline_calls. reflexivity.
  - intros t Ht. unfold Otsu.threshold. rewrite Ht. reflexivity.
  - reflexivity.
Qed.

(** C2: a selector outside the ten recognized codes makes [gaussian_blur]
    fail with the invalid-channel error, whatever the image; no library
    operation has been called by then, and the caller receives that same
    exception. *)
Theorem gaussian_blur_invalid_channel img c tr :
  ¬ In c Spec.recognized_codes →
  run (gaussian_blur lib img (Some c)) tr
  = (Raise Spec.InvalidChannelError,
     tr ++ [Stdout "Error in gaussian_blur: Invalid channel specified."])
  ∧ ∀ fn, In (Call fn) (run (gaussian_blur lib img (Some c)) tr).2 →
          In (Call fn) tr.
Proof.
  intros Hc.
  assert (py_in c Spec.recognized_codes = false) as Hin.
  { apply not_true_is_false. unfold py_in. rewrite existsb_exists.
    intros (x & Hx & He). apply String.eqb_eq in He. by subst. }
  assert (run (gaussian_blur lib img (Some c)) tr
          = (Raise Spec.InvalidChannelError,
             tr ++ [Stdout "Error in gaussian_blur: Invalid channel specified."]))
    as Hrun.
  { cbv -[String.eqb] in Hin.
    repeat match type of Hin with
           | (if String.eqb c ?x then _ else _) = false =>
               destruct (String.eqb c x) eqn:?; [discriminate Hin|]
           end.
    cbv -[String.eqb app Pcv.fill_holes Otsu.threshold Grid.map].
    by repeat match goal with
              | H : String.eqb c _ = false |- _ => rewrite H; clear H
              end. }
  split; [done|].
  intros fn. rewrite Hrun; simpl. rewrite in_app_iff.
  intros [?|[?|[]]]; [done|discriminate].
Qed.

(** C5: on a valid image and a recognized selector, the mask that
    [gaussian_blur] returns has the width and the height of the image. *)
Theorem gaussian_blur_keeps_dimensions img c tr :
  Spec.valid_image img →
  In c Spec.recognized_codes →
  ∃ mask tr',
    run (gaussian_blur lib img (Some c)) tr = (Return mask, tr')
    ∧ Grid.height mask = Grid.height img
    ∧ Grid.width mask = Grid.width img
    ∧ Grid.rectangular mask.
Proof.
  intros (Hrect & _ & _) Hc.
  apply recognized_selector in Hc as [s Hs].
  apply selector_of_code_inv in Hs as ->.
  eexists _, _. split; [apply gaussian_blur_run|].
  pose proof (extract_mask_row_lengths img s) as Hl.
  split_and!.
  - by apply row_lengths_height.
  - by apply row_lengths_width.
  - by apply (row_lengths_rectangular img).
Qed.

End Pipeline.

(** ** Thresholding a uniform buffer *)

Section Thresholding.
Implicit Types (values : list Z) (gray : GrayscaleBuffer).

Lemma filter_none {A} (f : A → bool) (l : list A) :
  (∀ x, In x l → f x = false) → List.filter f l = [].
Proof.
  induction l as [|a l IH]; intros H; simpl; [done|].
  rewrite (H a) by (by left). apply IH. intros x Hx. apply H. by right.
Qed.

(** No level separates two non-empty classes when all values are equal. *)
Lemma between_class_variance_constant values v t :
  (∀ x, In x values → x = v) →
  Otsu.between_class_variance values t = None.
Proof.
  intros Hv. unfold Otsu.between_class_variance.
  destruct (Z.le_gt_cases t v) as [Htv|Htv].
  - unfold Otsu.below. rewrite filter_none; [done|].
    intros x Hx. rewrite (Hv x Hx). lia.
  - unfold Otsu.at_or_above. rewrite (filter_none (λ x, t <=? x)).
    + simpl. by rewrite orb_true_r.
    + intros x Hx. rewrite (Hv x Hx). lia.
Qed.

Lemma fold_better_degenerate values (ts : list Z) best :
  (∀ t, Otsu.between_class_variance values t = None) →
  fold_left (Otsu.better values) ts best = best.
Proof.
  intros H. revert best. induction ts as [|t ts IH]; intros best; simpl; [done|].
  unfold Otsu.better at 2. by rewrite H, IH.
Qed.

Lemma otsu_threshold_constant values v :
  (∀ x, In x values → x = v) → Otsu.otsu_threshold values = None.
Proof.
  intros Hv. unfold Otsu.otsu_threshold.
  rewrite fold_better_degenerate; [done|].
  intros t. by apply (between_class_variance_constant values v).
Qed.

Lemma In_concat_cell {A} (g : Grid.t A) x :
  In x (concat g) → ∃ r c, Grid.cell g r c = Some x.
Proof.
  rewrite in_concat. intros (row & Hrow & Hx).
  apply list_elem_of_In in Hrow, Hx.
  apply list_elem_of_lookup in Hrow as [r Hr].
  apply list_elem_of_lookup in Hx as [c Hc].
  exists r, c. unfold Grid.cell. by rewrite Hr.
Qed.

Lemma otsu_threshold_uniform gray :
  Spec.uniform gray → Otsu.otsu_threshold (concat gray) = None.
Proof.
  intros [v Hv]. apply (otsu_threshold_constant _ v).
  intros x Hx. apply In_concat_cell in Hx as (r & c & Hx). eauto.
Qed.

(** C8: thresholding a uniform grayscale buffer returns a mask, of the shape
    of the buffer, in which every cell is BACKGROUND. *)
Theorem threshold_uniform_all_background gray tr :
  Spec.uniform gray →
  ∃ mask,
    run (pcv_threshold_otsu gray "light") tr
    = (Return mask, tr ++ [Call "pcv.threshold.otsu"])
    ∧ Grid.row_lengths mask = Grid.row_lengths gray
    ∧ ∀ r c, Grid.cell mask r c = (λ _, BACKGROUND) <$> Grid.cell gray r c.
Proof.
  intros Hu. exists (Otsu.threshold gray Otsu.LIGHT_IS_OBJECT). split_and!.
  - reflexivity.
  - unfold Otsu.threshold.
    destruct (Otsu.otsu_threshold _); apply row_lengths_map.
  - intros r c. unfold Otsu.threshold.
    rewrite (otsu_threshold_uniform gray Hu). apply cell_map.
Qed.

End Thresholding.

(** ** The region-of-interest overlay *)

Section Roi.
Implicit Types (mask : BinaryMask) (p q : Cell).

Lemma minimum_le x xs : minimum x xs ≤ x ∧ ∀ z, In z xs → minimum x xs ≤ z.
Proof.
  induction xs as [|a xs [IH1 IH2]]; simpl; [split; [lia | intros ? []]|].
  split; [lia|]. intros z [->|Hz]; [lia|]. specialize (IH2 z Hz). lia.
Qed.

Lemma maximum_ge x xs : x ≤ maximum x xs ∧ ∀ z, In z xs → z ≤ maximum x xs.
Proof.
  induction xs as [|a xs [IH1 IH2]]; simpl; [split; [lia | intros ? []]|].
  split; [lia|]. intros z [->|Hz]; [lia|]. specialize (IH2 z Hz). lia.
Qed.

Lemma minimum_In x xs : In (minimum x xs) (x :: xs).
Proof.
  induction xs as [|a xs IH]; simpl; [by left|].
  destruct (Z.min_spec a (minimum x xs)) as [[_ ->]|[_ ->]]; [right; by left|].
  destruct IH; [by left | right; by right].
Qed.

Lemma maximum_In x xs : In (maximum x xs) (x :: xs).
Proof.
  induction xs as [|a xs IH]; simpl; [by left|].
  destruct (Z.max_spec a (maximum x xs)) as [[_ ->]|[_ ->]]; [|right; by left].
  destruct IH; [by left | right; by right].
Qed.

(** In a rectangular mask every non-zero cell is one of the listed cells. *)
Lemma nonzero_In_cells mask p :
  Grid.rectangular mask → nonzero mask p = true → In p (Pcv.cells mask).
Proof.
  destruct p as [r c]. unfold nonzero, Grid.cell; simpl. intros Hrect.
  destruct (mask !! r) as [row|] eqn:Hr; simpl; [|done].
  destruct (row !! c) as [v|] eqn:Hc; [intros _|done].
  unfold Pcv.cells. apply in_prod; apply in_seq; simpl.
  - apply lookup_lt_Some in Hr. unfold Grid.height. lia.
  - apply lookup_lt_Some in Hc.
    unfold Grid.rectangular in Hrect. rewrite Forall_lookup in Hrect.
    specialize (Hrect r row Hr). lia.
Qed.

Lemma In_fmap_of {A} (f : A → Z) (l : list A) z :
  In z (f <$> l) ↔ ∃ a, In a l ∧ f a = z.
Proof.
  rewrite <- list_elem_of_In, list_elem_of_fmap. split.
  - intros (a & -> & Ha). exists a. by rewrite <- list_elem_of_In.
  - intros (a & Ha & <-). exists a. by rewrite list_elem_of_In.
Qed.

(** [bounding_rect] is the smallest rectangle around the foreground: with
    inclusive corners it runs from [(x, y)] to [(x + w - 1, y + h - 1)]. *)
Lemma bounding_rect_minimal mask x y w h :
  Grid.rectangular mask →
  (∃ p, nonzero mask p = true) →
  bounding_rect mask = (x, y, w, h) →
  Spec.bounds_exactly (x, y) (x + w - 1, y + h - 1) mask.
Proof.
  intros Hrect [p0 Hp0] Hbr. unfold bounding_rect in Hbr.
  pose proof (nonzero_In_cells mask p0 Hrect Hp0) as Hin0.
  assert (∀ q, In q (List.filter (nonzero mask) (Pcv.cells mask))
               ↔ nonzero mask q = true) as HL.
  { intros q. rewrite filter_In. split; [tauto|].
    intros Hq. split; [by apply nonzero_In_cells | done]. }
  destruct (List.filter (nonzero mask) (Pcv.cells mask)) as [|p ps] eqn:EL.
  { by apply (HL p0) in Hp0. }
  set (col := λ q : Cell, Z.of_nat q.2) in *.
  set (row := λ q : Cell, Z.of_nat q.1) in *.
  change (Z.of_nat p.2) with (col p) in Hbr.
  change (Z.of_nat p.1) with (row p) in Hbr.
  injection Hbr as <- <- <- <-.
  assert (∀ (f : Cell → Z) z, In z (f p :: (f <$> ps))
            → ∃ q, nonzero mask q = true ∧ f q = z) as Hattained.
  { intros f z [<-|Hz].
    - exists p. split; [|done]. apply HL. by left.
    - apply In_fmap_of in Hz as (q & Hq & <-).
      exists q. split; [|done]. apply HL. by right. }
  assert (∀ (f : Cell → Z) q, nonzero mask q = true
            → minimum (f p) (f <$> ps) ≤ f q ≤ maximum (f p) (f <$> ps))
    as Hwithin.
  { intros f q Hq.
    destruct (minimum_le (f p) (f <$> ps)) as [Hmin Hmins].
    destruct (maximum_ge (f p) (f <$> ps)) as [Hmax Hmaxs].
    apply HL in Hq as [<-|Hq]; [done|].
    assert (In (f q) (f <$> ps)) by (apply In_fmap_of; eauto).
    split; auto. }
  unfold Spec.bounds_exactly; simpl. split_and!.
  - intros q Hq. pose proof (Hwithin col q Hq). pose proof (Hwithin row q Hq).
    unfold col, row in *. lia.
  - destruct (Hattained col _ (minimum_In _ _)) as (q & ? & ?). eauto.
  - destruct (Hattained col _ (maximum_In _ _)) as (q & ? & Hq).
    exists q. split; [done|]. unfold col in *. lia.
  - destruct (Hattained row _ (minimum_In _ _)) as (q & ? & ?). eauto.
  - destruct (Hattained row _ (maximum_In _ _)) as (q & ? & Hq).
    exists q. split; [done|]. unfold row in *. lia.
Qed.

(** What [roi] hands to the drawing primitive. *)
Lemma roi_run (lib : Library) img mask tr x y w h :
  Grid.row_lengths img = Grid.row_lengths mask →
  bounding_rect mask = (x, y, w, h) →
  run (roi lib img mask) tr
  = (Return (cv2_rectangle lib (recolor img mask) (x, y) (x + w, y + h)
               (255, 0, 0) 2),
     tr ++ [Call "cv2.boundingRect"; Call "cv2.rectangle"]).
Proof.
  intros Hshape Hbr. unfold roi, cv2_boundingRect, same_shape.
  rewrite (bool_decide_eq_true_2 _ Hshape).
  rewrite run_bind, run_library_call; cbn beta iota. rewrite Hbr.
  rewrite run_library_call. by rewrite <- app_assoc.
Qed.

(** A mask of another shape than the picture stops [roi] at the
    recoloring. *)
Lemma roi_shape_mismatch (lib : Library) img mask tr :
  Grid.row_lengths img ≠ Grid.row_lengths mask →
  run (roi lib img mask) tr
  = (Raise (IndexError "boolean index did not match indexed array"), tr).
Proof.
  intros Hshape. unfold roi, same_shape.
  by rewrite (bool_decide_eq_false_2 _ Hshape), run_raise.
Qed.

(** The far corner passed to the drawing primitive lies one column and one
    row beyond the foreground, so the rectangle drawn is not the minimal
    one. *)
Lemma roi_rectangle_not_minimal mask x y w h :
  Grid.rectangular mask →
  (∃ p, nonzero mask p = true) →
  bounding_rect mask = (x, y, w, h) →
  ¬ Spec.bounds_exactly (x, y) (x + w, y + h) mask.
Proof.
  intros Hrect Hfg Hbr.
  destruct (bounding_rect_minimal mask x y w h Hrect Hfg Hbr) as (Hin & _).
  intros (_ & _ & (q & Hq & Hcol) & _). simpl in *.
  specialize (Hin q Hq). lia.
Qed.

Lemma dot_rectangular : Grid.rectangular Sample.dot.
Proof. repeat constructor. Qed.

Lemma dot_foreground : ∃ p, nonzero Sample.dot p = true.
Proof. by exists (1%nat, 1%nat). Qed.

(** C9, evaluated on a mask with the single foreground cell (1, 1): the
    minimal rectangle has both corners at (1, 1), and [roi] draws the
    rectangle with corners (1, 1) and (2, 2) on the recolored copy of every
    picture of the shape of the mask (for another shape the recoloring
    raises IndexError). *)
Theorem roi_rectangle_one_past_foreground (lib : Library) (img : Image) tr :
  run (roi lib img Sample.dot) tr
  = (if same_shape img Sample.dot
     then (Return (cv2_rectangle lib (recolor img Sample.dot) (1, 1) (2, 2)
                     (255, 0, 0) 2),
           tr ++ [Call "cv2.boundingRect"; Call "cv2.rectangle"])
     else (Raise (IndexError "boolean index did not match indexed array"),
           tr))
  ∧ Spec.bounds_exactly (1, 1) (1, 1) Sample.dot
  ∧ ¬ Spec.bounds_exactly (1, 1) (2, 2) Sample.dot.
Proof.
  assert (bounding_rect Sample.dot = (1, 1, 1, 1)) as Hbr by reflexivity.
  split_and!.
  - unfold same_shape. case_bool_decide as Hshape.
    + by rewrite (roi_run lib img _ tr 1 1 1 1 Hshape Hbr).
    + by apply roi_shape_mismatch.
  - apply (bounding_rect_minimal _ 1 1 1 1 dot_rectangular dot_foreground Hbr).
  - apply (roi_rectangle_not_minimal _ 1 1 1 1 dot_rectangular dot_foreground Hbr).
Qed.

End Roi.

(** ** Processing one picture *)

Section ProcessImage.
Context (lib : Library) (world : World).
Implicit Types (img : Image) (tr : list event) (t out : string).

Lemma run_readimage_ok p img tr :
  decode world p = Some img →
  run (pcv_readimage world p) tr = (Return img, tr ++ [ReadImage p]).
Proof. intros H. unfold run, pcv_readimage. by rewrite H. Qed.

Lemma run_readimage_fail p tr :
  decode world p = None →
  run (pcv_readimage world p) tr
  = (Raise (RuntimeError ("Failed to open " +:+ p)), tr ++ [ReadImage p]).
Proof. intros H. unfold run, pcv_readimage. by rewrite H. Qed.

Lemma gaussian_blur_none img tr :
  run (gaussian_blur lib img None) tr
  = (Return (Spec.extract_mask lib img Spec.sel_b),
     tr ++ Spec.pipeline_calls Spec.sel_b).
Proof. apply (gaussian_blur_run lib img Spec.sel_b). Qed.

Lemma dispatch_pipeline_consumer img out t tr :
  In t Spec.pipeline_consumers →
  ∃ result calls,
    run (dispatch lib img out t) tr
    = (Return (Some result), (tr ++ Spec.pipeline_calls Spec.sel_b) ++ calls)
    ∧ Spec.thresholdings calls = [] ∧ written calls = []
    ∧ Spec.pictures_read calls = [].
Proof.
  intros Ht. simpl in Ht.
  destruct Ht as [<-|[<-|[<-|[<-|[<-|[]]]]]].
  - change (dispatch lib img out "gaussian_blur")
      with (gaussian_blur lib img None ≫= λ result, mret (Some (Gray result))).
    rewrite run_bind, gaussian_blur_none; cbn beta iota. rewrite run_ret.
    eexists _, []. by rewrite app_nil_r.
  - change (dispatch lib img out "mask_objects")
      with (gaussian_blur lib img None ≫= λ mask,
            mask_objects img mask ≫= λ result, mret (Some (Color result))).
    rewrite run_bind, gaussian_blur_none; cbn beta iota.
    rewrite run_bind. unfold mask_objects, pcv_apply_mask.
    rewrite run_library_call; simpl. rewrite run_ret.
    by eexists _, [_].
  - change (dispatch lib img out "roi")
      with (gaussian_blur lib img None ≫= λ mask,
            roi lib img mask ≫= λ result, mret (Some (Color result))).
    rewrite run_bind, gaussian_blur_none; cbn beta iota.
    destruct (bounding_rect (Spec.extract_mask lib img Spec.sel_b))
      as [[[x y] w] h] eqn:Hbr.
    rewrite run_bind, (roi_run lib img _ _ x y w h
                         (eq_sym (extract_mask_row_lengths lib img Spec.sel_b))
                         Hbr); cbn beta iota.
    rewrite run_ret. by eexists _, [_; _].
  - change (dispatch lib img out "analyze_object")
      with (gaussian_blur lib img None ≫= λ mask,
            analyze_object lib img mask ≫= λ result, mret (Some (Color result))).
    rewrite run_bind, gaussian_blur_none; cbn beta iota.
    rewrite run_bind. unfold analyze_object.
    rewrite run_library_call; cbn beta iota. rewrite run_ret.
    by eexists _, [_].
  - change (dispatch lib img out "create_pseudolandmarks")
      with (gaussian_blur lib img None ≫= λ mask,
            create_pseudolandmarks_image lib img mask ≫= λ result,
            mret (Some (Color result))).
    rewrite run_bind, gaussian_blur_none; cbn beta iota.
    rewrite run_bind. unfold create_pseudolandmarks_image.
    rewrite run_bind, run_library_call; cbn beta iota.
    destruct (x_axis_pseudolandmarks lib img _) as [[top_x bottom_x] center_v_x].
    rewrite run_ret; cbn beta iota. rewrite run_ret.
    by eexists _, [_].
Qed.

Lemma dispatch_remove_black img out tr :
  ∃ result,
    run (dispatch lib img out "remove_black") tr
    = (Return (Some result),
       tr ++ [Call "cv2.cvtColor"; Call "cv2.threshold"; Call "pcv.apply_mask"]).
Proof.
  change (dispatch lib img out "remove_black")
    with (remove_black lib img ≫= λ result, mret (Some (Color result))).
  rewrite run_bind. unfold remove_black, pcv_apply_mask.
  repeat (first [rewrite run_bind | rewrite run_library_call | rewrite run_ret];
          cbn beta iota).
  simpl. eexists. by rewrite <- !app_assoc.
Qed.


(** *** The color analysis *)

Lemma map_m_histograms_trace color_data channels tr :
  ∃ r, run (map_m (histogram_entry color_data) channels) tr = (r, tr).
Proof.
  induction channels as [|ch channels [r IH]]; [by eexists|].
  change (map_m (histogram_entry color_data) (ch :: channels))
    with (histogram_entry color_data ch ≫= λ y,
          map_m (histogram_entry color_data) channels ≫= λ ys, mret (y :: ys)).
  rewrite run_bind. unfold histogram_entry at 1, dict_get.
  rewrite run_bind.
  destruct (color_data !! _) as [data|];
    [rewrite run_ret | rewrite run_raise; by eexists]; cbn beta iota.
  rewrite run_ret, run_bind, IH.
  destruct r; [rewrite run_ret|]; by eexists.
Qed.


(** Whatever the analysis library does, [analyze_color] writes the plot and
    returns, or writes nothing and raises. *)
Lemma analyze_color_run img mask out tr :
  ∃ r calls,
    run (analyze_color lib img mask out) tr = (r, tr ++ calls)
    ∧ Spec.thresholdings calls = [] ∧ Spec.pictures_read calls = []
    ∧ ((r = Return tt ∧ written calls = [histogram_path out])
       ∨ ((∃ e, r = Raise e) ∧ written calls = [])).
Proof.
  unfold analyze_color.
  change (λ channel : string,
            dict_get ?cd (channel +:+ "_frequencies") ≫= λ data,
            mret (channel, data))
    with (histogram_entry cd).
  rewrite run_try_except, run_bind, run_library_call.
  destruct (analyze_color_observations lib img mask) as [obs|e]; cbn beta iota.
  2:{ destruct (is_Exception e).
      - rewrite run_bind, run_print; cbn beta iota. rewrite run_raise.
        eexists _, [_; _]. rewrite <- app_assoc. split_and!; try done.
        right. eauto.
      - eexists _, [_]. split_and!; try done. right. eauto. }
  rewrite run_bind. unfold dict_get at 1.
  destruct (obs !! "default_1") as [cd|]; cbn beta iota.
  2:{ rewrite run_raise; cbn beta iota. simpl is_Exception; cbn beta iota.
      rewrite run_bind, run_print; cbn beta iota. rewrite run_raise.
      eexists _, [_; _]. rewrite <- app_assoc. split_and!; try done.
      right. eauto. }
  rewrite run_ret; cbn beta iota. rewrite run_bind.
  change (λ channel : string,
            dict_get cd (channel +:+ "_frequencies") ≫= λ data,
            mret (channel, data))
    with (histogram_entry cd).
  destruct (map_m_histograms_trace cd histogram_channels
              (tr ++ [Call "pcv.analyze.color"])) as [r ->].
  destruct r as [curves|e]; cbn beta iota.
  - unfold plt_savefig. rewrite run_emit.
    eexists _, [_; _]. rewrite <- app_assoc. split_and!; try done.
    left. done.
  - destruct (is_Exception e).
    + rewrite run_bind, run_print; cbn beta iota. rewrite run_raise.
      eexists _, [_; _]. rewrite <- app_assoc. split_and!; try done.
      right. eauto.
    + eexists _, [_]. split_and!; try done. right. eauto.
Qed.



(** *** [process_image] around the dispatch *)

Lemma process_image_run p out t tr img :
  decode world p = Some img →
  makedirs_error world out = None →
  run (process_image lib world p out t) tr
  = match run (dispatch lib img out t) (tr ++ [MakeDirs out; ReadImage p]) with
    | (Return (Some result), tr1) =>
        (Return tt,
         tr1 ++ [Saved (path_join out (t +:+ ".png")) (Picture result);
                 Stdout (t +:+ " result saved in " +:+ out +:+ ".")])
    | (Return None, tr1) => (Return tt, tr1)
    | (Raise e, tr1) =>
        if is_Exception e
        then (Raise e, tr1 ++ [Stdout ("Error processing image: " +:+ str e)])
        else (Raise e, tr1)
    end.
Proof.
  intros Himg Hmk. unfold process_image, os_makedirs, pcv_print_image.
  rewrite Hmk.
  rewrite run_try_except, run_bind, run_emit; cbn beta iota.
  rewrite run_bind, (run_readimage_ok _ _ _ Himg); cbn beta iota.
  rewrite run_bind, <- app_assoc. simpl app.
  destruct (run (dispatch lib img out t) _) as [[[result|]|e] tr1];
    cbn beta iota.
  - rewrite run_bind, run_emit; cbn beta iota.
    rewrite run_print. by rewrite <- app_assoc.
  - by rewrite run_ret.
  - destruct (is_Exception e); [|done].
    rewrite run_bind, run_print; cbn beta iota. by rewrite run_raise.
Qed.

Lemma process_image_unreadable p out t tr :
  decode world p = None →
  makedirs_error world out = None →
  run (process_image lib world p out t) tr
  = (Raise (RuntimeError ("Failed to open " +:+ p)),
     tr ++ [MakeDirs out; ReadImage p;
            Stdout ("Error processing image: Failed to open " +:+ p)]).
Proof.
  intros Himg Hmk. unfold process_image, os_makedirs. rewrite Hmk.
  rewrite run_try_except, run_bind, run_emit; cbn beta iota.
  rewrite run_bind, (run_readimage_fail _ _ Himg); cbn beta iota.
  simpl is_Exception; cbn beta iota.
  rewrite run_bind, run_print; cbn beta iota. rewrite run_raise.
  by rewrite <- !app_assoc.
Qed.

(** When the output directory cannot be created nothing else happens: the
    OSError is printed and raised again. *)
Lemma process_image_makedirs_fails p out t tr msg :
  makedirs_error world out = Some msg →
  run (process_image lib world p out t) tr
  = (Raise (OSError msg), tr ++ [Stdout ("Error processing image: " +:+ msg)]).
Proof.
  intros Hmk. unfold process_image, os_makedirs. rewrite Hmk.
  rewrite run_try_except, run_bind, run_raise; cbn beta iota.
  simpl is_Exception; cbn beta iota.
  rewrite run_bind, run_print; cbn beta iota. by rewrite run_raise.
Qed.

Lemma dispatch_analyze_color img out tr :
  run (dispatch lib img out "analyze_color") tr
  = match run (analyze_color lib img (Spec.extract_mask lib img Spec.sel_b) out)
            (tr ++ Spec.pipeline_calls Spec.sel_b) with
    | (Return _, tr1) => (Return None, tr1 ++ [Stdout "Color analysis saved."])
    | (Raise e, tr1) => (Raise e, tr1)
    end.
Proof.
  change (dispatch lib img out "analyze_color")
    with (gaussian_blur lib img None ≫= λ mask,
          analyze_color lib img mask out ≫= λ _,
          print "Color analysis saved." ≫= λ _, mret (@None ndarray)).
  rewrite run_bind, gaussian_blur_none; cbn beta iota. rewrite run_bind.
  destruct (run (analyze_color _ _ _ _) _) as [[[]|e] tr1]; cbn beta iota; [|done].
  rewrite run_bind, run_print; cbn beta iota. by rewrite run_ret.
Qed.

(** Every transformation but [remove_black] runs the pipeline right after
    the picture is read, and thresholds nowhere else. *)
Lemma process_image_pipeline_trace p out t tr img :
  decode world p = Some img →
  makedirs_error world out = None →
  In t Spec.pipeline_consumers ∨ t = "analyze_color" →
  ∃ r rest,
    run (process_image lib world p out t) tr
    = (r, ((tr ++ [MakeDirs out; ReadImage p])
           ++ Spec.pipeline_calls Spec.sel_b) ++ rest)
    ∧ Spec.thresholdings rest = [] ∧ Spec.pictures_read rest = [].
Proof.
  intros Himg Hmk Ht. rewrite (process_image_run _ _ _ _ _ Himg Hmk).
  destruct Ht as [Ht| ->].
  - destruct (dispatch_pipeline_consumer img out t
                (tr ++ [MakeDirs out; ReadImage p]) Ht)
      as (result & calls & -> & Hth & _ & Hrd).
    eexists _, (calls ++ [_; _]). rewrite <- !app_assoc. split; [done|].
    by rewrite thresholdings_app, pictures_read_app, Hth, Hrd.
  - rewrite dispatch_analyze_color.
    destruct (analyze_color_run img (Spec.extract_mask lib img Spec.sel_b) out
                ((tr ++ [MakeDirs out; ReadImage p])
                 ++ Spec.pipeline_calls Spec.sel_b))
      as (r & calls & -> & Hth & Hrd & _).
    destruct r as [[]|e]; [|destruct (is_Exception e)].
    + eexists _, (calls ++ [_]). rewrite <- !app_assoc. split; [done|].
      by rewrite thresholdings_app, pictures_read_app, Hth, Hrd.
    + eexists _, (calls ++ [_]). rewrite <- !app_assoc. split; [done|].
      by rewrite thresholdings_app, pictures_read_app, Hth, Hrd.
    + by eexists _, calls.
Qed.

Lemma choices_cases t :
  In t choices →
  In t Spec.pipeline_consumers ∨ t = "remove_black" ∨ t = "analyze_color".
Proof. simpl. intuition. Qed.

End ProcessImage.

(** ** Where the masks come from *)

Section MaskSources.
Context (lib : Library) (world : World).
Implicit Types (img : Image) (tr : list event) (t out : string).

(** C6, as amended: every transformation of [process_image] other than
    [remove_black] runs [gaussian_blur] on the picture it has just read and
    performs no thresholding besides that of the pipeline; [remove_black]
    thresholds the picture by itself with [cv2.threshold] and does not run
    the pipeline. *)
Lemma dispatch_is_consumer img out t tr :
  In t choices → t ≠ "remove_black" →
  run (dispatch lib img out t) tr
  = run (gaussian_blur lib img None ≫= Spec.consumer lib img out t) tr.
Proof.
  intros Ht Hne. simpl in Ht.
  destruct Ht as [<-|[<-|[<-|[<-|[<-|[<-|[<-|[]]]]]]]];
    first [done | reflexivity].
Qed.

Lemma remove_black_run img tr :
  run (remove_black lib img) tr
  = (Return (Spec.without_black lib img),
     tr ++ [Call "cv2.cvtColor"; Call "cv2.threshold"; Call "pcv.apply_mask"]).
Proof.
  unfold remove_black, pcv_apply_mask.
  repeat (first [rewrite run_bind | rewrite run_library_call | rewrite run_ret];
          cbn beta iota).
  change (String.eqb "white" "white") with true. cbn beta iota.
  by rewrite <- !app_assoc.
Qed.

(** Whatever mask it is given, the rest of a branch thresholds nothing. *)
Lemma consumer_thresholds_nothing img out t (mask : BinaryMask) tr :
  In t Spec.pipeline_consumers ∨ t = "analyze_color" →
  Spec.thresholdings (run (Spec.consumer lib img out t mask) tr).2
  = Spec.thresholdings tr.
Proof.
  intros [Ht| ->].
  - simpl in Ht. destruct Ht as [<-|[<-|[<-|[<-|[<-|[]]]]]].
    + done.
    + change (Spec.consumer lib img out "mask_objects" mask)
        with (mask_objects img mask ≫= λ result, mret (Some (Color result))).
      unfold mask_objects, pcv_apply_mask.
      rewrite run_bind, run_library_call.
      change (String.eqb "white" "white") with true. cbn beta iota.
      rewrite run_ret. simpl snd.
      by rewrite thresholdings_app, app_nil_r.
    + change (Spec.consumer lib img out "roi" mask)
        with (roi lib img mask ≫= λ result, mret (Some (Color result))).
      rewrite run_bind.
      destruct (decide (Grid.row_lengths img = Grid.row_lengths mask))
        as [Hshape|Hshape].
      * destruct (bounding_rect mask) as [[[x y] w] h] eqn:Hbr.
        rewrite (roi_run lib img mask tr x y w h Hshape Hbr); cbn beta iota.
        rewrite run_ret. simpl snd. by rewrite thresholdings_app, app_nil_r.
      * by rewrite (roi_shape_mismatch lib img mask tr Hshape).
    + change (Spec.consumer lib img out "analyze_object" mask)
        with (analyze_object lib img mask ≫= λ result,
              mret (Some (Color result))).
      unfold analyze_object.
      rewrite run_bind, run_library_call; cbn beta iota. rewrite run_ret.
      simpl snd. by rewrite thresholdings_app, app_nil_r.
    + change (Spec.consumer lib img out "create_pseudolandmarks" mask)
        with (create_pseudolandmarks_image lib img mask ≫= λ result,
              mret (Some (Color result))).
      unfold create_pseudolandmarks_image.
      rewrite !run_bind, run_library_call; cbn beta iota.
      destruct (x_axis_pseudolandmarks lib img mask) as [[? ?] ?].
      rewrite run_ret; cbn beta iota. rewrite run_ret.
      simpl snd. by rewrite thresholdings_app, app_nil_r.
  - change (Spec.consumer lib img out "analyze_color" mask)
      with (analyze_color lib img mask out ≫= λ _,
            print "Color analysis saved." ≫= λ _, mret (@None ndarray)).
    rewrite run_bind.
    destruct (analyze_color_run lib img mask out tr)
      as (r & calls & -> & Hth & _).
    destruct r as [[]|e]; cbn beta iota.
    + rewrite run_bind, run_print; cbn beta iota. rewrite run_ret. simpl snd.
      by rewrite !thresholdings_app, Hth, !app_nil_r.
    + simpl snd. by rewrite thresholdings_app, Hth, app_nil_r.
Qed.

(** C6, as amended: when the picture is read, every transformation of
    [process_image] other than [remove_black] runs [gaussian_blur] on that
    picture and hands the mask it returns to the rest of its branch, which
    thresholds nothing whatever the mask; the only thresholding of the run
    is that of the pipeline.  [remove_black] does not run the pipeline: it
    thresholds the grayscale conversion of the picture at 20 with
    [cv2.threshold] and whitens the picture with that mask. *)
Theorem consumers_threshold_in_pipeline p out t img :
  decode world p = Some img →
  makedirs_error world out = None →
  In t choices →
  t ≠ "remove_black" →
  Spec.thresholds_in_pipeline_only lib world p out t
  ∧ (∀ tr, run (dispatch lib img out t) tr
           = run (gaussian_blur lib img None ≫= Spec.consumer lib img out t) tr)
  ∧ (∀ mask tr,
       Spec.thresholdings (run (Spec.consumer lib img out t mask) tr).2
       = Spec.thresholdings tr)
  ∧ (∀ tr, ∃ rest,
       (run (process_image lib world p out t) tr).2
       = (run (gaussian_blur lib img None)
              (tr ++ [MakeDirs out; ReadImage p])).2 ++ rest
       ∧ Spec.thresholdings rest = [])
  ∧ (∀ tr,
       run (dispatch lib img out "remove_black") tr
       = (Return (Some (Color (Spec.without_black lib img))),
          tr ++ [Call "cv2.cvtColor"; Call "cv2.threshold";
                 Call "pcv.apply_mask"])
       ∧ Spec.thresholdings
           (run (process_image lib world p out "remove_black") tr).2
         = Spec.thresholdings tr ++ ["cv2.threshold"]).
Proof.
  intros Himg Hmk Ht Hne.
  assert (In t Spec.pipeline_consumers ∨ t = "analyze_color") as Ht'.
  { destruct (choices_cases t Ht) as [?|[?|?]]; by auto. }
  assert (∀ tr, run (dispatch lib img out "remove_black") tr
                = (Return (Some (Color (Spec.without_black lib img))),
                   tr ++ [Call "cv2.cvtColor"; Call "cv2.threshold";
                          Call "pcv.apply_mask"])) as Hrb.
  { intros tr.
    change (dispatch lib img out "remove_black")
      with (remove_black lib img ≫= λ result, mret (Some (Color result))).
    by rewrite run_bind, remove_black_run. }
  split_and!.
  - intros tr.
    destruct (process_image_pipeline_trace lib world p out t tr img Himg Hmk Ht')
      as (r & rest & -> & Hth & _).
    simpl snd. rewrite !thresholdings_app, Hth, app_nil_r.
    change (Spec.thresholdings [MakeDirs out; ReadImage p]) with (@nil string).
    change (Spec.thresholdings (Spec.pipeline_calls Spec.sel_b))
      with ["pcv.threshold.otsu"].
    by rewrite app_nil_r.
  - intros tr. by apply dispatch_is_consumer.
  - intros mask tr. by apply consumer_thresholds_nothing.
  - intros tr.
    destruct (process_image_pipeline_trace lib world p out t tr img Himg Hmk Ht')
      as (r & rest & -> & Hth & _).
    exists rest. by rewrite gaussian_blur_none.
  - intros tr. split; [apply Hrb|].
    rewrite (process_image_run _ _ _ _ _ _ _ Himg Hmk), Hrb.
    simpl snd. rewrite <- !app_assoc. simpl app.
    by rewrite thresholdings_app.
Qed.

End MaskSources.


(** On the sample picture [remove_black] computes its mask with a threshold
    of its own. *)
Lemma remove_black_thresholds_by_itself :
  ¬ (∀ t, In t choices →
          Spec.thresholds_in_pipeline_only
            Sample.library Sample.world "leaf.jpg" "out" t).
Proof.
  intros H.
  assert (In "remove_black" choices) as Hin by (simpl; tauto).
  specialize (H "remove_black" Hin []).
  vm_compute in H. discriminate H.
Qed.

Lemma consumers_threshold_in_pipeline_witness :
  Spec.thresholds_in_pipeline_only Sample.library Sample.world
    "leaf.jpg" "out" "roi".
Proof.
  apply (consumers_threshold_in_pipeline Sample.library Sample.world
           "leaf.jpg" "out" "roi" Sample.image).
  - reflexivity.
  - reflexivity.
  - simpl; tauto.
  - discriminate.
Defined.

(** ** Files written by one run *)

Section Outputs.
Context (lib : Library) (world : World).
Implicit Types (img : Image) (tr : list event) (t out : string).





(** Also when the analysis fails, the result image is not written: the run
    writes the plot or nothing. *)
Lemma analyze_color_never_writes_result p out tr :
  let tr' := (run (process_image lib world p out "analyze_color") tr).2 in
  written tr' = written tr
  ∨ written tr' = written tr ++ [path_join out "color_histogram.png"].
Proof.
  destruct (makedirs_error world out) as [msg|] eqn:Hmk.
  { rewrite (process_image_makedirs_fails _ _ _ _ _ _ _ Hmk); simpl.
    left. by rewrite written_app, app_nil_r. }
  destruct (decode world p) as [img|] eqn:Himg; simpl.
  - rewrite (process_image_run _ _ _ _ _ _ _ Himg Hmk), dispatch_analyze_color.
    assert (written ((tr ++ [MakeDirs out; ReadImage p])
                     ++ Spec.pipeline_calls Spec.sel_b) = written tr) as Hpre.
    { rewrite !written_app.
      change (written [MakeDirs out; ReadImage p]) with (@nil string).
      change (written (Spec.pipeline_calls Spec.sel_b)) with (@nil string).
      by rewrite !app_nil_r. }
    set (pre := (tr ++ [MakeDirs out; ReadImage p])
                ++ Spec.pipeline_calls Spec.sel_b) in *.
    destruct (analyze_color_run lib img (Spec.extract_mask lib img Spec.sel_b)
                out pre)
      as (r & calls & -> & _ & _ & Hw).
    destruct Hw as [[-> Hw]|[[e ->] Hw]]; simpl snd.
    + right. rewrite !written_app, Hpre, Hw.
      change (written [Stdout "Color analysis saved."]) with (@nil string).
      by rewrite app_nil_r.
    + left. destruct (is_Exception e); simpl snd;
        rewrite !written_app, Hpre, Hw, ?app_nil_r; done.
  - rewrite (process_image_unreadable _ _ _ _ _ _ Himg Hmk); simpl snd.
    left. by rewrite written_app, app_nil_r.
Qed.

End Outputs.


(** ** A run over a directory *)

Section Batch.
Context (lib : Library) (world : World).
Implicit Types (tr : list event) (file : string) (files : list string).

Lemma for_each_stops {A} (body : A → M unit) (before : list A) x after
    tr tr1 tr2 e :
  run (for_each before body) tr = (Return tt, tr1) →
  run (body x) tr1 = (Raise e, tr2) →
  run (for_each (before ++ x :: after) body) tr = (Raise e, tr2).
Proof.
  revert tr. induction before as [|y before IH]; intros tr Hbefore Hx.
  - injection Hbefore as <-. simpl.
    change (run (body x ≫= λ _, for_each after body) tr = (Raise e, tr2)).
    by rewrite run_bind, Hx.
  - change (run (body y ≫= λ _, for_each before body) tr = (Return tt, tr1))
      in Hbefore.
    change (run (body y ≫= λ _, for_each (before ++ x :: after) body) tr
            = (Raise e, tr2)).
    rewrite run_bind in Hbefore |- *.
    destruct (run (body y) tr) as [[[]|e'] tr']; [|discriminate Hbefore].
    by apply IH.
Qed.

(** A failure of [process_image] that [except Exception] catches has been
    printed before it is raised again. *)
Lemma process_image_reports p out t tr tr2 e :
  run (process_image lib world p out t) tr = (Raise e, tr2) →
  is_Exception e = true →
  ∃ tr', tr2 = tr' ++ [Stdout ("Error processing image: " +:+ str e)].
Proof.
  unfold process_image. rewrite run_try_except.
  destruct (run _ tr) as [[[]|e'] tr']; [discriminate|].
  destruct (is_Exception e') eqn:He'.
  - rewrite run_bind, run_print; cbn beta iota. rewrite run_raise.
    intros [= <- <-] _. by eexists.
  - intros [= <- <-]. congruence.
Qed.

(** One call of [process_image] reads the picture it is given and no
    other, and not even that one when the output directory cannot be
    created. *)
Lemma process_image_reads_one p out t tr :
  In t choices →
  Spec.pictures_read (run (process_image lib world p out t) tr).2
  = Spec.pictures_read tr
    ++ match makedirs_error world out with None => [p] | Some _ => [] end.
Proof.
  intros Ht. destruct (makedirs_error world out) as [msg|] eqn:Hmk.
  { rewrite (process_image_makedirs_fails _ _ _ _ _ _ _ Hmk). simpl snd.
    by rewrite pictures_read_app. }
  destruct (decode world p) as [img|] eqn:Himg.
  - destruct (choices_cases t Ht) as [Hc|[->|Hc]].
    + destruct (process_image_pipeline_trace lib world p out t tr img Himg Hmk
                  (or_introl Hc)) as (r & rest & -> & _ & Hrd).
      simpl snd. rewrite !pictures_read_app, Hrd.
      change (Spec.pictures_read (Spec.pipeline_calls Spec.sel_b))
        with (@nil string).
      by rewrite !app_nil_r.
    + rewrite (process_image_run _ _ _ _ _ _ _ Himg Hmk).
      destruct (dispatch_remove_black lib img out
                  (tr ++ [MakeDirs out; ReadImage p])) as [result ->].
      simpl snd. rewrite <- !app_assoc. simpl app.
      by rewrite pictures_read_app.
    + destruct (process_image_pipeline_trace lib world p out t tr img Himg Hmk
                  (or_intror Hc)) as (r & rest & -> & _ & Hrd).
      simpl snd. rewrite !pictures_read_app, Hrd.
      change (Spec.pictures_read (Spec.pipeline_calls Spec.sel_b))
        with (@nil string).
      by rewrite !app_nil_r.
  - rewrite (process_image_unreadable _ _ _ _ _ _ Himg Hmk). simpl snd.
    by rewrite pictures_read_app.
Qed.

(** C7, as amended: in a run over a directory, a failure while processing
    one picture is printed and raised again; the exception leaves the loop
    and ends the run there, so the pictures listed before the failing one
    have been processed and those listed after it are not; the failing
    picture itself has been read, unless the output directory could not be
    created. *)
Theorem main_stops_at_first_failure argv before file after tr tr1 tr2 e :
  py_in (transformation argv) choices = true →
  isfile world (input argv) = false →
  isdir world (input argv) = true →
  listdir world (input argv) = before ++ file :: after →
  is_picture file = true →
  run (for_each before
         (λ file,
            if is_picture file
            then process_image lib world (path_join (input argv) file)
                   (output argv) (transformation argv)
            else mret tt)) tr
  = (Return tt, tr1) →
  run (process_image lib world (path_join (input argv) file) (output argv)
         (transformation argv)) tr1
  = (Raise e, tr2) →
  run (main lib world argv) tr = (Raise e, tr2)
  ∧ Spec.pictures_read tr2
    = Spec.pictures_read tr1
      ++ match makedirs_error world (output argv) with
         | None => [path_join (input argv) file]
         | Some _ => []
         end
  ∧ (is_Exception e = true →
     ∃ tr', tr2 = tr' ++ [Stdout ("Error processing image: " +:+ str e)]).
Proof.
  intros Hchoice Hfile Hdir Hlist Hpic Hbefore Hfail. split_and!.
  - unfold main, parse_args. rewrite Hchoice, run_bind, run_ret; cbn beta iota.
    rewrite Hfile, Hdir, Hlist.
    apply (for_each_stops _ before file after tr tr1 tr2 e Hbefore).
    by rewrite Hpic.
  - assert (In (transformation argv) choices) as Hin.
    { unfold py_in in Hchoice. apply existsb_exists in Hchoice as (x & Hx & He).
      apply String.eqb_eq in He. by subst. }
    pose proof (process_image_reads_one (path_join (input argv) file)
                  (output argv) (transformation argv) tr1 Hin) as Hrd.
    by rewrite Hfail in Hrd.
  - by apply (process_image_reports _ _ _ _ _ _ Hfail).
Qed.

End Batch.

(** In the sample directory the first picture cannot be decoded, and the
    second one is never read. *)
Lemma unreadable_picture_aborts_run :
  ¬ Spec.every_picture_processed Sample.library Sample.world
      {| input := "leaves"; output := "out"; transformation := "roi" |}.
Proof.
  intros H.
  assert (In "b.png" ["a.png"; "b.png"]) as Hin by (simpl; tauto).
  specialize (H "b.png" Hin eq_refl).
  vm_compute in H. destruct H as [H|[]]. discriminate H.
Qed.

Lemma main_stops_at_first_failure_witness :
  run (main Sample.library Sample.world
         {| input := "leaves"; output := "out"; transformation := "roi" |}) []
  = (Raise (RuntimeError "Failed to open leaves/a.png"),
     [MakeDirs "out"; ReadImage "leaves/a.png";
      Stdout "Error processing image: Failed to open leaves/a.png"]).
Proof.
  apply (main_stops_at_first_failure Sample.library Sample.world
           {| input := "leaves"; output := "out"; transformation := "roi" |}
           [] "a.png" ["b.png"] [] []).
  - reflexivity.
  - reflexivity.
  - reflexivity.
  - reflexivity.
  - reflexivity.
  - reflexivity.
  - reflexivity.
Defined.

(** ** The properties on the sample picture *)

(** The enclosed cell of the ring is filled, the ground around it is kept. *)
Example fill_holes_ring :
  Pcv.fill_holes Sample.ring
  = [[0; 0; 0; 0; 0];
     [0; 255; 255; 255; 0];
     [0; 255; 255; 255; 0];
     [0; 255; 255; 255; 0];
     [0; 0; 0; 0; 0]].
Proof. vm_compute. reflexivity. Qed.

(** A cell that meets the outside across a corner is background under
    8-connectivity and a hole under 4-connectivity. *)
Example fill_holes_corner_leak :
  Grid.cell (Pcv.fill_holes Sample.corner_leak) 1 1 = Some BACKGROUND
  ∧ Grid.cell (Pcv.fill_holes_with Pcv.adjacent4 Sample.corner_leak) 1 1
    = Some FOREGROUND.
Proof. split; vm_compute; reflexivity. Qed.

(** End to end: the leaf block of the sample picture, and nothing else. *)
Example gaussian_blur_sample :
  run (gaussian_blur Sample.library Sample.image None) []
  = (Return [[0; 0; 0; 0];
             [0; 255; 255; 0];
             [0; 255; 255; 0];
             [0; 0; 0; 0]],
     [Call "pcv.rgb2gray_lab"; Call "pcv.threshold.otsu";
      Call "pcv.fill_holes"]).
Proof. vm_compute. reflexivity. Qed.

(** The threshold of the projected sample picture separates soil (128) from
    leaf (213). *)
Example otsu_threshold_sample :
  Otsu.otsu_threshold
    (concat (Spec.project Sample.library Sample.image Spec.sel_b))
  = Some 129.
Proof. vm_compute. reflexivity. Qed.

Lemma sample_image_valid : Spec.valid_image Sample.image.
Proof.
  split; [repeat constructor | split; simpl; lia].
Defined.

Lemma gaussian_blur_is_extract_mask_witness :
  run (gaussian_blur Sample.library Sample.image (Some "b")) []
  = (Return (Spec.extract_mask Sample.library Sample.image Spec.sel_b),
     [Call "pcv.rgb2gray_lab"; Call "pcv.threshold.otsu";
      Call "pcv.fill_holes"]).
Proof.
  apply (gaussian_blur_is_extract_mask Sample.library Sample.image "b"
           Spec.sel_b []).
  - exact sample_image_valid.
  - reflexivity.
Defined.

Lemma gaussian_blur_invalid_channel_witness :
  run (gaussian_blur Sample.library Sample.image (Some "z")) []
  = (Raise (ValueError "Invalid channel specified."),
     [Stdout "Error in gaussian_blur: Invalid channel specified."]).
Proof.
  apply (gaussian_blur_invalid_channel Sample.library Sample.image "z" []).
  simpl. intros H. repeat (destruct H as [H|H]; [discriminate H|]). exact H.
Defined.

Lemma fill_holes_monotone_witness :
  Grid.cell (Pcv.fill_holes Sample.ring) 1 1 = Some FOREGROUND.
Proof.
  apply (fill_holes_monotone Sample.ring 1 1 FOREGROUND); reflexivity.
Defined.

Lemma gaussian_blur_keeps_dimensions_witness :
  ∃ mask tr',
    run (gaussian_blur Sample.library Sample.image (Some "b")) []
    = (Return mask, tr')
    ∧ Grid.height mask = 4%nat ∧ Grid.width mask = 4%nat
    ∧ Grid.rectangular mask.
Proof.
  apply (gaussian_blur_keeps_dimensions Sample.library Sample.image "b" []).
  - exact sample_image_valid.
  - simpl. tauto.
Defined.

Lemma threshold_uniform_all_background_witness :
  ∃ mask,
    run (pcv_threshold_otsu [[7; 7]; [7; 7]] "light") []
    = (Return mask, [Call "pcv.threshold.otsu"])
    ∧ Grid.row_lengths mask = [2; 2]%nat
    ∧ ∀ r c, Grid.cell mask r c
             = (λ _, BACKGROUND) <$> Grid.cell [[7; 7]; [7; 7]] r c.
Proof.
  apply (threshold_uniform_all_background [[7; 7]; [7; 7]] []).
  exists 7. intros r c x.
  destruct r as [|[|r]], c as [|[|c]]; simpl; intros [= <-]; reflexivity.
Defined.

(** * Further properties of the program *)

(** ** Landmark circles *)

Section Circles.
Context (lib : Library).
Implicit Types (image : Image) (center : coordinate lib * coordinate lib).
Implicit Types (color : Pixel).

Lemma cell_draw_circle image center radius color r c :
  Grid.cell (draw_circle lib image center radius color) r c
  = (λ px, if within_radius lib r c center radius then color else px)
    <$> Grid.cell image r c.
Proof. apply cell_imap. Qed.

Lemma draw_circle_row_lengths image center radius color :
  Grid.row_lengths (draw_circle lib image center radius color)
  = Grid.row_lengths image.
Proof. apply row_lengths_imap. Qed.

(** X1: drawing the same circle a second time changes nothing, and a
    circle never changes the shape of the picture. *)
Theorem draw_circle_idempotent image center radius color :
  draw_circle lib (draw_circle lib image center radius color)
    center radius color
  = draw_circle lib image center radius color
  ∧ Grid.row_lengths (draw_circle lib image center radius color)
    = Grid.row_lengths image.
Proof.
  split; [|apply draw_circle_row_lengths].
  apply grid_ext; [apply draw_circle_row_lengths|].
  intros r c. rewrite !cell_draw_circle.
  destruct (Grid.cell image r c) as [px|]; simpl; [|done].
  by destruct (within_radius lib r c center radius).
Qed.

(** The circles of one landmark list, drawn in order. *)
Lemma cell_circles (points : list (coordinate lib * coordinate lib)) color
    image r c :
  Grid.cell
    (fold_left (λ acc point, draw_circle lib acc point 5 color) points image)
    r c
  = (λ px, if marked lib points r c then color else px)
    <$> Grid.cell image r c.
Proof.
  revert image. induction points as [|pt points IH]; intros image; simpl.
  - by destruct (Grid.cell image r c).
  - rewrite IH, cell_draw_circle.
    destruct (Grid.cell image r c) as [px|]; simpl; [|done].
    unfold marked. simpl.
    by destruct (within_radius lib r c pt 5), (existsb _ points).
Qed.

Lemma circles_row_lengths (points : list (coordinate lib * coordinate lib))
    color image :
  Grid.row_lengths
    (fold_left (λ acc point, draw_circle lib acc point 5 color) points image)
  = Grid.row_lengths image.
Proof.
  revert image. induction points as [|pt points IH]; intros image; simpl;
    [done|]. by rewrite IH, draw_circle_row_lengths.
Qed.

(** X3: [create_pseudolandmarks_image] returns a picture of the shape of
    its input in which a cell that passes the radius-5 test of a center
    landmark is (255, 0, 0), else one that passes it for a bottom landmark
    is (255, 0, 255), else one that passes it for a top landmark is
    (0, 0, 255), and every other cell is the input pixel: later circles
    paint over earlier ones. *)
Theorem create_pseudolandmarks_image_cells image (mask : BinaryMask) tr :
  ∃ result,
    run (create_pseudolandmarks_image lib image mask) tr
    = (Return result, tr ++ [Call "pcv.homology.x_axis_pseudolandmarks"])
    ∧ Grid.row_lengths result = Grid.row_lengths image
    ∧ ∀ r c,
        Grid.cell result r c
        = (λ px,
             let '(top_x, bottom_x, center_v_x) :=
               x_axis_pseudolandmarks lib image mask in
             if marked lib center_v_x r c then (255, 0, 0)
             else if marked lib bottom_x r c then (255, 0, 255)
             else if marked lib top_x r c then (0, 0, 255)
             else px)
          <$> Grid.cell image r c.
Proof.
  unfold create_pseudolandmarks_image.
  rewrite run_bind, run_library_call; cbn beta iota.
  destruct (x_axis_pseudolandmarks lib image mask)
    as [[top_x bottom_x] center_v_x].
  rewrite run_ret. eexists. split; [done|]. simpl fold_left. split.
  - by rewrite !circles_row_lengths.
  - intros r c. rewrite !cell_circles.
    destruct (Grid.cell image r c) as [px|]; simpl; [|done].
    by destruct (marked lib center_v_x r c), (marked lib bottom_x r c),
                (marked lib top_x r c).
Qed.

End Circles.

(** ** Failures of one run *)

Section Failures.
Context (lib : Library) (world : World).
Implicit Types (img : Image) (tr : list event) (t out p : string).

Lemma not_py_in x xs : ¬ In x xs → py_in x xs = false.
Proof.
  intros H. apply not_true_is_false. unfold py_in. rewrite existsb_exists.
  intros (y & Hy & He). apply String.eqb_eq in He. by subst.
Qed.

Lemma dispatch_unsupported img out t tr :
  ¬ In t choices →
  run (dispatch lib img out t) tr
  = (Raise (ValueError "Unsupported transformation selected."), tr).
Proof.
  intros Ht. apply not_py_in in Ht. cbv -[String.eqb] in Ht.
  repeat match type of Ht with
         | (if String.eqb t ?x then _ else _) = false =>
             destruct (String.eqb t x) eqn:?; [discriminate Ht|]
         end.
  unfold dispatch.
  by repeat match goal with
            | H : String.eqb t _ = false |- _ => rewrite H; clear H
            end.
Qed.

(** X4: when the output directory can be created, a transformation name
    that [process_image] does not know is found out only after the
    directory has been created and the picture read; the ValueError is printed once and raised again, and no
    file is written. *)
Theorem process_image_unsupported p out t tr img :
  decode world p = Some img →
  makedirs_error world out = None →
  ¬ In t choices →
  run (process_image lib world p out t) tr
  = (Raise (ValueError "Unsupported transformation selected."),
     tr ++ [MakeDirs out; ReadImage p;
            Stdout "Error processing image: Unsupported transformation selected."]).
Proof.
  intros Himg Hmk Ht.
  rewrite (process_image_run _ _ _ _ _ _ _ Himg Hmk), dispatch_unsupported by done.
  simpl. by rewrite <- app_assoc.
Qed.

(** X5: when the output directory can be created and the picture cannot
    be read, [process_image] has already created the directory; it prints the error once, raises it
    again, calls no vision operation and writes no file, whatever the
    transformation. *)
Theorem process_image_unreadable_effects p out t tr :
  decode world p = None →
  makedirs_error world out = None →
  ∃ tr',
    run (process_image lib world p out t) tr
    = (Raise (RuntimeError ("Failed to open " +:+ p)), tr')
    ∧ tr' = tr ++ [MakeDirs out; ReadImage p;
                   Stdout ("Error processing image: Failed to open " +:+ p)]
    ∧ written tr' = written tr
    ∧ Spec.thresholdings tr' = Spec.thresholdings tr.
Proof.
  intros Himg Hmk. eexists. split; [by apply process_image_unreadable|].
  split; [done|].
  rewrite written_app, thresholdings_app. simpl. by rewrite !app_nil_r.
Qed.

(** X2: when [os.makedirs] fails, [process_image] stops there: the
    OSError is printed once and raised again, no picture is read, no vision
    operation is called and no file is written, whatever the picture and the
    transformation. *)
Theorem process_image_makedirs_failure p out t tr msg :
  makedirs_error world out = Some msg →
  ∃ tr',
    run (process_image lib world p out t) tr = (Raise (OSError msg), tr')
    ∧ tr' = tr ++ [Stdout ("Error processing image: " +:+ msg)]
    ∧ Spec.pictures_read tr' = Spec.pictures_read tr
    ∧ written tr' = written tr
    ∧ Spec.thresholdings tr' = Spec.thresholdings tr.
Proof.
  intros Hmk. eexists. split; [by apply process_image_makedirs_fails|].
  split; [done|].
  rewrite pictures_read_app, written_app, thresholdings_app. simpl.
  by rewrite !app_nil_r.
Qed.

(** X6: [main] ends with SystemExit, before touching anything, when the
    transformation is not one of the choices; with a valid transformation
    and an input that is neither a file nor a directory it prints one line
    and returns normally. *)
Theorem main_rejects argv tr :
  (¬ In (transformation argv) choices →
   run (main lib world argv) tr = (Raise (SystemExit 2), tr))
  ∧ (In (transformation argv) choices →
     isfile world (input argv) = false →
     isdir world (input argv) = false →
     run (main lib world argv) tr
     = (Return tt,
        tr ++ [Stdout "Invalid input path. Provide an image or directory."])).
Proof.
  split.
  - intros Ht. unfold main, parse_args.
    by rewrite (not_py_in _ _ Ht), run_bind, run_raise.
  - intros Ht Hfile Hdir. unfold main, parse_args.
    assert (py_in (transformation argv) choices = true) as ->.
    { unfold py_in. apply existsb_exists. eexists. split; [done|].
      apply String.eqb_refl. }
    rewrite run_bind, run_ret; cbn beta iota.
    by rewrite Hfile, Hdir, run_print.
Qed.

End Failures.

Lemma process_image_unsupported_witness :
  run (process_image Sample.library Sample.world "leaf.jpg" "out" "sharpen") []
  = (Raise (ValueError "Unsupported transformation selected."),
     [MakeDirs "out"; ReadImage "leaf.jpg";
      Stdout "Error processing image: Unsupported transformation selected."]).
Proof.
  apply (process_image_unsupported Sample.library Sample.world
           "leaf.jpg" "out" "sharpen" [] Sample.image).
  - reflexivity.
  - reflexivity.
  - simpl. intros H. repeat (destruct H as [H|H]; [discriminate H|]). exact H.
Defined.

Lemma process_image_unreadable_effects_witness :
  ∃ tr',
    run (process_image Sample.library Sample.world "leaves/a.png" "out" "roi")
        []
    = (Raise (RuntimeError ("Failed to open " +:+ "leaves/a.png")), tr')
    ∧ tr' = [] ++ [MakeDirs "out"; ReadImage "leaves/a.png";
                   Stdout ("Error processing image: Failed to open "
                           +:+ "leaves/a.png")]
    ∧ written tr' = written []
    ∧ Spec.thresholdings tr' = Spec.thresholdings [].
Proof.
  apply (process_image_unreadable_effects Sample.library Sample.world
           "leaves/a.png" "out" "roi" []).
  - reflexivity.
  - reflexivity.
Defined.

Lemma process_image_makedirs_failure_witness :
  ∃ tr',
    run (process_image Sample.library Sample.world "leaf.jpg" "" "roi") []
    = (Raise (OSError "[Errno 2] No such file or directory: ''"), tr')
    ∧ tr' = [] ++ [Stdout ("Error processing image: "
                            +:+ "[Errno 2] No such file or directory: ''")]
    ∧ Spec.pictures_read tr' = Spec.pictures_read []
    ∧ written tr' = written []
    ∧ Spec.thresholdings tr' = Spec.thresholdings [].
Proof.
  apply (process_image_makedirs_failure Sample.library Sample.world
           "leaf.jpg" "" "roi" []).
  reflexivity.
Defined.

Lemma main_rejects_witness :
  run (main Sample.library Sample.world
         {| input := "leaf.jpg"; output := "out"; transformation := "blur" |})
      []
  = (Raise (SystemExit 2), [])
  ∧ run (main Sample.library Sample.world
           {| input := "nowhere"; output := "out"; transformation := "roi" |})
        []
    = (Return tt,
       [Stdout "Invalid input path. Provide an image or directory."]).
Proof.
  split.
  - apply (main_rejects Sample.library Sample.world
             {| input := "leaf.jpg"; output := "out";
                transformation := "blur" |} []).
    simpl. intros H. repeat (destruct H as [H|H]; [discriminate H|]). exact H.
  - apply (main_rejects Sample.library Sample.world
             {| input := "nowhere"; output := "out";
                transformation := "roi" |} []).
    + simpl. tauto.
    + reflexivity.
    + reflexivity.
Defined.

(** ** File names *)

Section FileNames.

Lemma append_cons c (a b : string) : String c a +:+ b = String c (a +:+ b).
Proof. reflexivity. Qed.

Lemma lower_app (a b : string) : lower (a +:+ b) = lower a +:+ lower b.
Proof.
  induction a as [|c a IH]; [done|].
  rewrite append_cons. simpl lower. by rewrite IH, append_cons.
Qed.

Lemma length_app (a b : string) :
  String.length (a +:+ b) = (String.length a + String.length b)%nat.
Proof.
  induction a as [|c a IH]; [done|].
  rewrite append_cons. simpl String.length. by rewrite IH.
Qed.

Lemma substring_all (b : string) : String.substring 0 (String.length b) b = b.
Proof. induction b as [|c b IH]; simpl; [done|]. by rewrite IH. Qed.

Lemma substring_app (a b : string) :
  String.substring (String.length a) (String.length b) (a +:+ b) = b.
Proof.
  induction a as [|c a IH]; [apply substring_all|].
  rewrite append_cons. simpl. exact IH.
Qed.

Lemma endswith_app (a b : string) : endswith (a +:+ b) b = true.
Proof.
  unfold endswith. rewrite length_app.
  replace (String.length a + String.length b - String.length b)%nat
    with (String.length a) by lia.
  rewrite substring_app, String.eqb_refl, andb_true_r.
  apply Nat.leb_le. lia.
Qed.

(** X8: the directory filter looks at the last letters only, ignoring
    case: every name that ends in "jpg", "jpeg" or "png" in any mix of
    upper and lower case is taken for a picture, with or without a dot
    before it. *)
Theorem is_picture_suffix (name ext : string) :
  In (lower ext) ["jpg"; "jpeg"; "png"]%string →
  is_picture (name +:+ ext) = true.
Proof.
  intros Hext. unfold is_picture. apply existsb_exists.
  exists (lower ext). split; [done|].
  rewrite lower_app. apply endswith_app.
Qed.

End FileNames.

Lemma is_picture_suffix_witness :
  is_picture ("scan" +:+ "JPeG") = true.
Proof.
  apply (is_picture_suffix "scan" "JPeG"). simpl. tauto.
Defined.

(** ** A run over a directory of readable pictures *)

Section Directory.
Context (lib : Library) (world : World).
Implicit Types (tr : list event) (t out dir : string).



End Directory.


(** ** The overlay rectangle and the recolored copy *)

Section Overlay.
Implicit Types (mask : BinaryMask) (img : Image).

(** X9: for a mask of the shape of the picture, with foreground, the
    rectangle that [roi] draws starts
    at the leftmost column and topmost row of the foreground and every
    foreground cell lies strictly before its far corner; it is drawn on a
    copy of the image that differs from it exactly at the non-zero cells of
    the mask, which are (0, 255, 0). *)
Theorem roi_rectangle_encloses (lib : Library) img mask tr x y w h :
  Grid.row_lengths img = Grid.row_lengths mask →
  Grid.rectangular mask →
  (∃ p, nonzero mask p = true) →
  bounding_rect mask = (x, y, w, h) →
  run (roi lib img mask) tr
  = (Return (cv2_rectangle lib (recolor img mask) (x, y) (x + w, y + h)
               (255, 0, 0) 2),
     tr ++ [Call "cv2.boundingRect"; Call "cv2.rectangle"])
  ∧ (0 ≤ x ∧ 0 ≤ y ∧ 1 ≤ w ∧ 1 ≤ h)
  ∧ (∀ p, nonzero mask p = true →
          x ≤ Z.of_nat p.2 < x + w ∧ y ≤ Z.of_nat p.1 < y + h)
  ∧ (∀ r c, Grid.cell (recolor img mask) r c
            = (λ px, if nonzero mask (r, c) then (0, 255, 0) else px)
              <$> Grid.cell img r c).
Proof.
  intros Hshape Hrect Hfg Hbr.
  destruct (bounding_rect_minimal mask x y w h Hrect Hfg Hbr)
    as (Hin & (p1 & Hp1 & Hx) & _ & (p2 & Hp2 & Hy) & _).
  simpl in *. split_and!.
  - by apply roi_run.
  - lia.
  - lia.
  - specialize (Hin p1 Hp1). lia.
  - specialize (Hin p2 Hp2). lia.
  - intros p Hp. specialize (Hin p Hp). lia.
  - intros r c. apply cell_imap.
Qed.

End Overlay.

Lemma roi_rectangle_encloses_witness :
  run (roi Sample.library Sample.image Sample.dot) []
  = (Return (cv2_rectangle Sample.library (recolor Sample.image Sample.dot)
               (1, 1) (1 + 1, 1 + 1) (255, 0, 0) 2),
     [] ++ [Call "cv2.boundingRect"; Call "cv2.rectangle"])
  ∧ (0 ≤ 1 ∧ 0 ≤ 1 ∧ 1 ≤ 1 ∧ 1 ≤ 1).
Proof.
  assert (Grid.rectangular Sample.dot) as Hrect by repeat constructor.
  assert (∃ p, nonzero Sample.dot p = true) as Hfg
    by (by exists (1%nat, 1%nat)).
  assert (bounding_rect Sample.dot = (1, 1, 1, 1)) as Hbr by reflexivity.
  pose proof (roi_rectangle_encloses Sample.library Sample.image Sample.dot []
                1 1 1 1 eq_refl Hrect Hfg Hbr) as (Hrun & Hpos & _).
  split; [exact Hrun | exact Hpos].
Defined.

(** ** The mask of the pipeline *)

Section MaskShape.
Context (lib : Library).

Lemma threshold_binary (gray : GrayscaleBuffer) polarity :
  binary (Otsu.threshold gray polarity).
Proof.
  intros r c v. unfold Otsu.threshold.
  destruct (Otsu.otsu_threshold _) as [t|]; rewrite cell_map;
    destruct (Grid.cell gray r c) as [x|]; simpl; intros [= <-].
  - unfold Otsu.label. destruct polarity, (t <=? x); auto.
  - by left.
Qed.

Lemma fill_holes_binary (mask : BinaryMask) :
  binary mask → binary (Pcv.fill_holes mask).
Proof.
  intros Hb r c v. unfold Pcv.fill_holes. rewrite cell_fill_holes.
  destruct (Grid.cell mask r c) as [x|] eqn:Hx; simpl; intros [= <-].
  unfold Pcv.fill_cell.
  destruct ((x =? BACKGROUND) && _); [by right | by apply (Hb r c)].
Qed.

(** X12: the mask [gaussian_blur] returns for a recognized selector holds
    only 0 and 255 and has no hole left: filling it again changes
    nothing. *)
Theorem gaussian_blur_mask_binary_and_filled (img : Image) c tr :
  In c Spec.recognized_codes →
  ∃ mask tr',
    run (gaussian_blur lib img (Some c)) tr = (Return mask, tr')
    ∧ binary mask
    ∧ Pcv.fill_holes mask = mask.
Proof.
  intros Hc. apply recognized_selector in Hc as [s Hs].
  apply selector_of_code_inv in Hs as ->.
  eexists _, _. split; [apply gaussian_blur_run|].
  unfold Spec.extract_mask. split.
  - apply fill_holes_binary, threshold_binary.
  - apply fill_holes_with_idempotent.
Qed.

End MaskShape.

Lemma gaussian_blur_mask_binary_and_filled_witness :
  ∃ mask tr',
    run (gaussian_blur Sample.library Sample.image (Some "s")) []
    = (Return mask, tr')
    ∧ binary mask
    ∧ Pcv.fill_holes mask = mask.
Proof.
  apply (gaussian_blur_mask_binary_and_filled Sample.library Sample.image
           "s" []).
  simpl. tauto.
Defined.

(** ** The color analysis in detail *)

Section ColorAnalysis.
Context (lib : Library) (world : World).
Implicit Types (img : Image) (mask : BinaryMask) (tr : list event).
Implicit Types (color_data : gmap string Series) (out p : string).


(** The first channel without a series stops the collection. *)
Lemma map_m_histograms_missing color_data before ch after tr :
  (∀ c, In c before → is_Some (color_data !! (c +:+ "_frequencies"))) →
  color_data !! (ch +:+ "_frequencies") = None →
  run (map_m (histogram_entry color_data) (before ++ ch :: after)) tr
  = (Raise (KeyError (ch +:+ "_frequencies")), tr).
Proof.
  intros Hall Hch. induction before as [|c before IH].
  - change (run (histogram_entry color_data ch ≫= λ y,
                 map_m (histogram_entry color_data) after ≫= λ ys,
                 mret (y :: ys)) tr = (Raise (KeyError (ch +:+ "_frequencies")), tr)).
    rewrite run_bind. unfold histogram_entry, dict_get.
    by rewrite run_bind, Hch, run_raise.
  - destruct (Hall c (or_introl eq_refl)) as [data Hdata].
    change (run (histogram_entry color_data c ≫= λ y,
                 map_m (histogram_entry color_data) (before ++ ch :: after)
                 ≫= λ ys, mret (y :: ys)) tr
            = (Raise (KeyError (ch +:+ "_frequencies")), tr)).
    rewrite run_bind. unfold histogram_entry at 1, dict_get.
    rewrite run_bind, Hdata, run_ret; cbn beta iota.
    rewrite run_ret, run_bind, IH; [done|].
    intros c' Hc'. apply Hall. by right.
Qed.


(** A failure of the analysis inside [process_image]. *)
Lemma process_image_analysis_fails p out tr img e calls :
  decode world p = Some img →
  makedirs_error world out = None →
  is_Exception e = true →
  (∀ tr0, run (analyze_color lib img (Spec.extract_mask lib img Spec.sel_b) out)
              tr0
          = (Raise e, tr0 ++ calls)) →
  run (process_image lib world p out "analyze_color") tr
  = (Raise e,
     (((tr ++ [MakeDirs out; ReadImage p]) ++ Spec.pipeline_calls Spec.sel_b)
      ++ calls) ++ [Stdout ("Error processing image: " +:+ str e)]).
Proof.
  intros Himg Hmk He Hrun.
  rewrite (process_image_run _ _ _ _ _ _ _ Himg Hmk), dispatch_analyze_color, Hrun.
  by rewrite He.
Qed.

(** X11: when the output directory can be created and the picture read,
    and the observations hold no entry "default_1", or lack the
    series of a channel, the KeyError names the missing key (the first
    missing channel in list order); it is printed by [analyze_color] and
    again by [process_image], raised to the caller, and no plot is
    written. *)
Theorem analyze_color_missing_key p out tr img obs :
  decode world p = Some img →
  makedirs_error world out = None →
  analyze_color_observations lib img (Spec.extract_mask lib img Spec.sel_b)
  = Return obs →
  (obs !! "default_1" = None →
   run (process_image lib world p out "analyze_color") tr
   = (Raise (KeyError "default_1"),
      (((tr ++ [MakeDirs out; ReadImage p]) ++ Spec.pipeline_calls Spec.sel_b)
       ++ [Call "pcv.analyze.color";
           Stdout ("Error in analyze_color: " +:+ str (KeyError "default_1"))])
      ++ [Stdout ("Error processing image: " +:+ str (KeyError "default_1"))]))
  ∧ (∀ color_data before ch after,
       obs !! "default_1" = Some color_data →
       histogram_channels = before ++ ch :: after →
       (∀ c, In c before → is_Some (color_data !! (c +:+ "_frequencies"))) →
       color_data !! (ch +:+ "_frequencies") = None →
       run (process_image lib world p out "analyze_color") tr
       = (Raise (KeyError (ch +:+ "_frequencies")),
          (((tr ++ [MakeDirs out; ReadImage p])
            ++ Spec.pipeline_calls Spec.sel_b)
           ++ [Call "pcv.analyze.color";
               Stdout ("Error in analyze_color: "
                       +:+ str (KeyError (ch +:+ "_frequencies")))])
          ++ [Stdout ("Error processing image: "
                      +:+ str (KeyError (ch +:+ "_frequencies")))])).
Proof.
  intros Himg Hmk Hobs. split.
  - intros Hnone. apply (process_image_analysis_fails p out tr img); [done..|].
    intros tr0. unfold analyze_color.
    rewrite run_try_except, run_bind, run_library_call, Hobs; cbn beta iota.
    rewrite run_bind. unfold dict_get at 1.
    rewrite Hnone, run_raise; cbn beta iota. simpl is_Exception; cbn beta iota.
    rewrite run_bind, run_print; cbn beta iota. rewrite run_raise.
    by rewrite <- app_assoc.
  - intros color_data before ch after Hcd Hsplit Hbefore Hch.
    apply (process_image_analysis_fails p out tr img); [done..|].
    intros tr0. unfold analyze_color.
    rewrite run_try_except, run_bind, run_library_call, Hobs; cbn beta iota.
    rewrite run_bind. unfold dict_get at 1.
    rewrite Hcd, run_ret; cbn beta iota. rewrite run_bind.
    change (λ channel : string,
              dict_get color_data (channel +:+ "_frequencies") ≫= λ data,
              mret (channel, data))
      with (histogram_entry color_data).
    rewrite Hsplit, map_m_histograms_missing by done. cbn beta iota.
    simpl is_Exception; cbn beta iota.
    rewrite run_bind, run_print; cbn beta iota. rewrite run_raise.
    by rewrite <- app_assoc.
Qed.

End ColorAnalysis.


Lemma analyze_color_missing_key_witness :
  run (process_image (Sample.observing ∅) Sample.world "leaf.jpg" "out"
         "analyze_color") []
  = (Raise (KeyError "default_1"),
     ((([] ++ [MakeDirs "out"; ReadImage "leaf.jpg"])
       ++ Spec.pipeline_calls Spec.sel_b)
      ++ [Call "pcv.analyze.color";
          Stdout ("Error in analyze_color: " +:+ str (KeyError "default_1"))])
     ++ [Stdout ("Error processing image: " +:+ str (KeyError "default_1"))]).
Proof.
  apply (analyze_color_missing_key (Sample.observing ∅) Sample.world
           "leaf.jpg" "out" [] Sample.image ∅).
  - reflexivity.
  - reflexivity.
  - reflexivity.
  - reflexivity.
Defined.

(** ** The Bayesian branch *)

Section BayesFacts.
Context (naive_bayes_classifier :
           Image → string → outcome (gmap string BinaryMask)).
Implicit Types (img : Image) (tr : list event).

(** X13: [bayes] asks the classifier for the masks of "./output.txt",
    takes the one of the class "plant" and returns it hole-filled, so
    filling the result again changes nothing and its shape is that of the
    plant mask; without a "plant" class it raises KeyError, prints nothing
    and fills nothing. *)
Theorem bayes_plant_mask img tr masks :
  naive_bayes_classifier img "./output.txt" = Return masks →
  (∀ plant, masks !! "plant" = Some plant →
     run (bayes naive_bayes_classifier img) tr
     = (Return (Pcv.fill_holes plant),
        tr ++ [Call "pcv.naive_bayes_classifier"; Call "pcv.fill_holes"])
     ∧ Pcv.fill_holes (Pcv.fill_holes plant) = Pcv.fill_holes plant
     ∧ Grid.row_lengths (Pcv.fill_holes plant) = Grid.row_lengths plant)
  ∧ (masks !! "plant" = None →
     run (bayes naive_bayes_classifier img) tr
     = (Raise (KeyError "plant"), tr ++ [Call "pcv.naive_bayes_classifier"])).
Proof.
  intros Hmasks. split.
  - intros plant Hplant. split_and!.
    + unfold bayes, pcv_fill_holes.
      rewrite run_bind, run_library_call, Hmasks; cbn beta iota.
      rewrite run_bind. unfold dict_get. rewrite Hplant, run_ret; cbn beta iota.
      rewrite run_bind, run_library_call; cbn beta iota.
      by rewrite run_ret, <- app_assoc.
    + apply fill_holes_with_idempotent.
    + apply fill_holes_shape.
  - intros Hnone. unfold bayes.
    rewrite run_bind, run_library_call, Hmasks; cbn beta iota.
    rewrite run_bind. unfold dict_get. by rewrite Hnone, run_raise.
Qed.

End BayesFacts.

Lemma bayes_plant_mask_witness :
  run (bayes Sample.classifier Sample.image) []
  = (Return (Pcv.fill_holes Sample.ring),
     [] ++ [Call "pcv.naive_bayes_classifier"; Call "pcv.fill_holes"])
  ∧ run (bayes Sample.classifier_without_plant Sample.image) []
    = (Raise (KeyError "plant"), [] ++ [Call "pcv.naive_bayes_classifier"]).
Proof.
  split.
  - apply (bayes_plant_mask Sample.classifier Sample.image []
             (list_to_map [("plant", Sample.ring); ("background", Sample.dot)])).
    + reflexivity.
    + vm_compute. reflexivity.
  - apply (bayes_plant_mask Sample.classifier_without_plant Sample.image []
             (list_to_map [("background", Sample.dot)])).
    + reflexivity.
    + vm_compute. reflexivity.
Defined.

(** ** What the saved pictures hold *)

Section SavedPictures.
Context (lib : Library) (world : World).
Implicit Types (img : Image) (tr : list event) (out p : string).


End SavedPictures.

